(** * UberEats MCP server: session manager and resilient call gateway

    A shallow embedding of [SessionService] (services/sessionService.ts),
    [N8nService] (services/n8nService.ts) and the tool handlers that use
    them (tools/login.ts, tools/addItems.ts, tools/setAddress.ts,
    tools/checkout.ts), followed by the properties claimed for them.

    Conventions of the embedding.
    - Time is the wall clock in milliseconds since the epoch, a [Z].  A
      [Date] is its [getTime()] value.
    - The Redis server is the pair [kv]/[sets] of the world.  String keys
      written under the prefix [<keyPrefix>session:] are keyed by the
      session identifier that follows the prefix; the sets
      [<keyPrefix>user:<username>:sessions] are keyed by the user name.
      The two key families differ right after the common prefix, so
      [KEYS <keyPrefix>session:*] returns exactly the domain of [kv].
    - Every string key carries the deadline that [SETEX] gave it.  Redis
      drops a key once the clock has gone past its deadline: this is what
      [advance] does when time passes.  A Redis round trip takes no time.
    - JSON.stringify / JSON.parse of a session is the identity on
      [SessionData] (dates survive to the millisecond).
    - An [async] method is a state transformer on the world that returns a
      value, throws, or, for the one recursion of the service, runs out of
      fuel.  Calls do not overlap: a call runs to its end before the next
      one starts.  Log statements are left out.
    - What the network does with a request (how long it takes, what comes
      back) and the identifier drawn by [uuidv4()] are arguments of the
      functions that use them. *)

From stdpp Require Import gmap strings list fin_maps.

Open Scope Z_scope.

(** ** Data model (types/session.ts, types/n8n.ts) *)

Inductive SessionStatus : Set :=
| ACTIVE
| MANUAL_LOGIN_PENDING
| EXPIRED
| INVALID.

#[global] Instance SessionStatus_eq_dec : EqDecision SessionStatus.
Proof. solve_decision. Defined.

Record Metadata : Set := {
  userAgent : option string;
  ipAddress : option string;
  loginMethod : option string
}.

(** [SessionData].  The field [id] of the source is [sid] here. *)
Record SessionData : Type := {
  sid : string;
  username : string;
  status : SessionStatus;
  createdAt : Z;
  updatedAt : Z;
  expiresAt : Z;
  loginCompletedAt : option Z;
  cookies : gmap string string;
  tokens : gmap string string;
  sessionStorage : gmap string string;
  localStorage : gmap string string;
  storageState : option string;
  metadata : option Metadata
}.

Record SessionCreateOptions : Type := {
  c_username : string;
  c_status : option SessionStatus;
  c_lifetimeMinutes : option Z;
  c_metadata : option Metadata
}.

Record SessionUpdateOptions : Type := {
  u_status : option SessionStatus;
  u_cookies : option (gmap string string);
  u_tokens : option (gmap string string);
  u_sessionStorage : option (gmap string string);
  u_localStorage : option (gmap string string);
  u_storageState : option string;
  u_loginCompletedAt : option Z
}.

(** [sessionConfig] and [n8nConfig.timeouts] of config/environment.ts. *)
Record Config : Set := {
  lifetimeMinutes : Z;
  maxSessions : Z;
  timeout_default : Z;
  timeout_manualLogin : Z;
  timeout_loginStatus : Z
}.

(** ** The external engine's answers and axios failures *)

Inductive ResponseStatus : Set :=
| success
| error
| manual_login_started
| login_incomplete.

#[global] Instance ResponseStatus_eq_dec : EqDecision ResponseStatus.
Proof. solve_decision. Defined.

Record N8nWebhookResponse : Type := {
  r_status : ResponseStatus;
  r_message : option string;
  r_cookies : option (gmap string string);
  r_tokens : option (gmap string string);
  r_sessionStorage : option (gmap string string);
  r_localStorage : option (gmap string string);
  r_storageState : option string;
  r_cartTotal : option string;
  r_orderConfirmationNumber : option string;
  r_estimatedDeliveryTime : option string;
  r_instructions : option (list string)
}.

(** A JavaScript value as far as [===] against a string literal needs it. *)
Inductive JsValue : Set :=
| JUndefined
| JNull
| JNum (n : Z)
| JStr (s : string).

#[global] Instance JsValue_eq_dec : EqDecision JsValue.
Proof. solve_decision. Defined.

(** An [AxiosError]: [code] is the string error code (ECONNABORTED,
    ETIMEDOUT, ECONNREFUSED, ...); [response] is the HTTP status and body
    when the server answered. *)
Record AxiosError : Set := {
  ax_code : option string;
  ax_response : option (Z * string)
}.

(** The [status] property of an [AxiosError]: the numeric HTTP status of
    its response, [null] for a response without one, absent otherwise. *)
Definition ax_status (e : AxiosError) : JsValue :=
  match ax_response e with
  | Some (st, _) => if st =? 0 then JNull else JNum st
  | None => JUndefined
  end.

(** The fourth constructor argument of [AppError], as the gateway fills it. *)
Inductive Details : Set :=
| DetailsNone
| DetailsAxios (e : AxiosError)
| DetailsStatusData (st : Z) (data : string).

(** [details?.status] *)
Definition details_status (d : Details) : JsValue :=
  match d with
  | DetailsNone => JUndefined
  | DetailsAxios e => ax_status e
  | DetailsStatusData st _ => JNum st
  end.

(** ** Thrown values (utils/errorHandler.ts, plus the libraries' errors) *)

Inductive Thrown : Set :=
| NotFoundError (resource : string)
| AuthenticationError (message : string)
| AppError (message : string) (statusCode : Z) (code : string)
| ExternalServiceError (service : string) (details : Details)
| CircuitBreakerError (service : string)
| ReplyError (message : string)
| AxiosErr (e : AxiosError)
| OtherError (message : string).

Definition is_NotFoundError (e : Thrown) : bool :=
  match e with NotFoundError _ => true | _ => false end.

Definition is_ExternalServiceError (e : Thrown) : bool :=
  match e with ExternalServiceError _ _ => true | _ => false end.

Definition thrown_details (e : Thrown) : Details :=
  match e with
  | ExternalServiceError _ d => d
  | _ => DetailsNone
  end.

(** ** The world *)

Record CircuitBreakerState : Set := {
  isOpen : bool;
  failures : Z;
  lastFailureTime : option Z;
  nextRetryTime : option Z
}.

Record World : Type := {
  now : Z;
  kv : gmap string (Z * SessionData);
  sets : gmap string (gset string);
  circuitBreakers : gmap string CircuitBreakerState;
  posts : list (string * Z)
}.

Definition set_kv (f : gmap string (Z * SessionData) -> gmap string (Z * SessionData))
  (w : World) : World :=
  {| now := now w; kv := f (kv w); sets := sets w;
     circuitBreakers := circuitBreakers w; posts := posts w |}.

Definition set_sets (f : gmap string (gset string) -> gmap string (gset string))
  (w : World) : World :=
  {| now := now w; kv := kv w; sets := f (sets w);
     circuitBreakers := circuitBreakers w; posts := posts w |}.

Definition set_circuitBreakers
  (f : gmap string CircuitBreakerState -> gmap string CircuitBreakerState)
  (w : World) : World :=
  {| now := now w; kv := kv w; sets := sets w;
     circuitBreakers := f (circuitBreakers w); posts := posts w |}.

Definition add_post (p : string * Z) (w : World) : World :=
  {| now := now w; kv := kv w; sets := sets w;
     circuitBreakers := circuitBreakers w; posts := posts w ++ [p] |}.

(** Time passes: the clock moves on by [dt] and Redis drops the string keys
    whose deadline is now behind the clock. *)
Definition advance (dt : Z) (w : World) : World :=
  {| now := now w + dt;
     kv := filter (fun p => now w + dt <= fst (snd p)) (kv w);
     sets := sets w;
     circuitBreakers := circuitBreakers w;
     posts := posts w |}.

(** ** A small monad for async methods *)

Inductive Res (A : Type) : Type :=
| Ret (a : A) (w : World)
| Throw (e : Thrown) (w : World)
| OutOfFuel.

Arguments Ret {A} a w.
Arguments Throw {A} e w.
Arguments OutOfFuel {A}.

Definition M (A : Type) : Type := World -> Res A.

Definition ret {A} (a : A) : M A := fun w => Ret a w.

Definition throw {A} (e : Thrown) : M A := fun w => Throw e w.

Definition bind {A B} (m : M A) (k : A -> M B) : M B :=
  fun w =>
    match m w with
    | Ret a w' => k a w'
    | Throw e w' => Throw e w'
    | OutOfFuel => OutOfFuel
    end.

(** [try { m } catch (e) { h e }] *)
Definition try_catch {A} (m : M A) (h : Thrown -> M A) : M A :=
  fun w =>
    match m w with
    | Ret a w' => Ret a w'
    | Throw e w' => h e w'
    | OutOfFuel => OutOfFuel
    end.

Definition modify (f : World -> World) : M unit := fun w => Ret tt (f w).

Definition gets {A} (f : World -> A) : M A := fun w => Ret (f w) w.

Declare Scope async_scope.
Delimit Scope async_scope with async.
Notation "'await' x <- m ; k" := (bind m (fun x => k))
  (at level 10, x name, m at level 100, k at level 200,
   format "'[v' 'await'  x  <-  m ; '/' k ']'") : async_scope.
Notation "'await_' m ; k" := (bind m (fun _ => k))
  (at level 10, m at level 100, k at level 200,
   format "'[v' 'await_'  m ; '/' k ']'") : async_scope.
Open Scope async_scope.

(** [new Date()] / [Date.now()] *)
Definition date_now : M Z := gets now.

(** ** Redis commands *)

Definition redis_get (key : string) : M (option SessionData) :=
  gets (fun w => snd <$> kv w !! key).

(** [SETEX key ttl value]: Redis refuses a time-to-live that is not
    positive. *)
Definition redis_setex (key : string) (ttl : Z) (value : SessionData) : M unit :=
  fun w =>
    if ttl <=? 0
    then Throw (ReplyError "ERR invalid expire time in 'setex' command") w
    else Ret tt (set_kv (insert key (now w + ttl * 1000, value)) w).

Definition redis_del (key : string) : M unit :=
  modify (set_kv (delete key)).

(** [KEYS <keyPrefix>session:*] *)
Definition redis_keys : M (list string) :=
  gets (fun w => elements (dom (kv w))).

Definition smembers_of (w : World) (key : string) : gset string :=
  default ∅ (sets w !! key).

Definition redis_smembers (key : string) : M (list string) :=
  gets (fun w => elements (smembers_of w key)).

Definition redis_sadd (key member : string) : M unit :=
  fun w => Ret tt (set_sets (insert key ({[member]} ∪ smembers_of w key)) w).

Definition redis_srem (key member : string) : M unit :=
  fun w => Ret tt (set_sets (insert key (smembers_of w key ∖ {[member]})) w).

(** ** SessionService (services/sessionService.ts) *)

(** [options.lifetimeMinutes || sessionConfig.lifetimeMinutes]: an absent
    or zero option falls back to the configured lifetime. *)
Definition lifetime_of (cfg : Config) (options : SessionCreateOptions) : Z :=
  match c_lifetimeMinutes options with
  | Some m => if m =? 0 then lifetimeMinutes cfg else m
  | None => lifetimeMinutes cfg
  end.

Definition getActiveSessionCount : M Z :=
  await keys <- redis_keys;
  ret (Z.of_nat (length keys)).

(** The session object [createSession] builds at the instant [t]. *)
Definition new_session (cfg : Config) (options : SessionCreateOptions)
  (uuid : string) (t : Z) : SessionData :=
  {| sid := uuid;
     username := c_username options;
     status := default ACTIVE (c_status options);
     createdAt := t;
     updatedAt := t;
     expiresAt := t + lifetime_of cfg options * 60000;
     loginCompletedAt := None;
     cookies := ∅;
     tokens := ∅;
     sessionStorage := ∅;
     localStorage := ∅;
     storageState := None;
     metadata := c_metadata options |}.

(** [uuid] is the identifier that [uuidv4()] returned for this call. *)
Definition createSession (cfg : Config) (options : SessionCreateOptions)
  (uuid : string) : M SessionData :=
  await t <- date_now;
  let session := new_session cfg options uuid t in
  await sessionCount <- getActiveSessionCount;
  if maxSessions cfg <=? sessionCount
  then throw (AppError "Maximum session limit reached" 503 "MAX_SESSIONS_EXCEEDED")
  else
    let ttl := (expiresAt session - t) / 1000 in
    await_ redis_setex uuid ttl session;
    await_ redis_sadd (c_username options) uuid;
    ret session.

(** The body of [deleteSession], over the [getSession] it calls. *)
Definition deleteSession_with (getSession : string -> M SessionData)
  (sessionId : string) : M unit :=
  try_catch
    (await session <- getSession sessionId;
     await_ redis_del sessionId;
     redis_srem (username session) sessionId)
    (fun e => if is_NotFoundError e then ret tt else throw e).

(** [getSession] and [deleteSession] call each other; [fuel] bounds the
    depth of that recursion. *)
Fixpoint getSession (fuel : nat) (sessionId : string) : M SessionData :=
  match fuel with
  | O => fun _ => OutOfFuel
  | S fuel' =>
      await data <- redis_get sessionId;
      match data with
      | None => throw (NotFoundError "Session")
      | Some session =>
          await t <- date_now;
          if expiresAt session <? t
          then
            await_ deleteSession_with (getSession fuel') sessionId;
            throw (AuthenticationError "Session expired")
          else ret session
      end
  end.

Definition deleteSession (fuel : nat) (sessionId : string) : M unit :=
  deleteSession_with (getSession fuel) sessionId.

(** [{ ...a, ...b }]: the keys of [b] win. *)
Definition spread (a b : gmap string string) : gmap string string := b ∪ a.

Definition merge_field (old : gmap string string)
  (upd : option (gmap string string)) : gmap string string :=
  match upd with
  | Some m => spread old m
  | None => old
  end.

(** The field updates of [updateSession], with [t] the [new Date()] that
    becomes [updatedAt]. *)
Definition apply_updates (session : SessionData) (updates : SessionUpdateOptions)
  (t : Z) : SessionData :=
  {| sid := sid session;
     username := username session;
     status := default (status session) (u_status updates);
     createdAt := createdAt session;
     updatedAt := t;
     expiresAt := expiresAt session;
     loginCompletedAt :=
       match u_loginCompletedAt updates with
       | Some d => Some d
       | None => loginCompletedAt session
       end;
     cookies := merge_field (cookies session) (u_cookies updates);
     tokens := merge_field (tokens session) (u_tokens updates);
     sessionStorage := merge_field (sessionStorage session) (u_sessionStorage updates);
     localStorage := merge_field (localStorage session) (u_localStorage updates);
     storageState := storageState session;
     metadata := metadata session |}.

Definition updateSession (fuel : nat) (sessionId : string)
  (updates : SessionUpdateOptions) : M SessionData :=
  await session <- getSession fuel sessionId;
  await t <- date_now;
  let session' := apply_updates session updates t in
  let ttl := (expiresAt session' - t) / 1000 in
  await_ (if 0 <? ttl then redis_setex sessionId ttl session' else ret tt);
  ret session'.

Definition validateSession (fuel : nat) (sessionId : string) : M bool :=
  try_catch
    (await session <- getSession fuel sessionId;
     ret (bool_decide (status session = ACTIVE)))
    (fun _ => ret false).

Fixpoint getUserSessions_loop (fuel : nat) (user : string)
  (sessionIds : list string) (sessions : list SessionData) : M (list SessionData) :=
  match sessionIds with
  | [] => ret sessions
  | sessionId :: rest =>
      await sessions' <-
        try_catch
          (await session <- getSession fuel sessionId;
           ret (sessions ++ [session]))
          (fun _ => await_ redis_srem user sessionId; ret sessions);
      getUserSessions_loop fuel user rest sessions'
  end.

Definition getUserSessions (fuel : nat) (user : string) : M (list SessionData) :=
  await sessionIds <- redis_smembers user;
  getUserSessions_loop fuel user sessionIds [].

Definition with_expiry (session : SessionData) (expires t : Z) : SessionData :=
  {| sid := sid session;
     username := username session;
     status := status session;
     createdAt := createdAt session;
     updatedAt := t;
     expiresAt := expires;
     loginCompletedAt := loginCompletedAt session;
     cookies := cookies session;
     tokens := tokens session;
     sessionStorage := sessionStorage session;
     localStorage := localStorage session;
     storageState := storageState session;
     metadata := metadata session |}.

Definition extendSession (fuel : nat) (sessionId : string)
  (additionalMinutes : Z) : M SessionData :=
  await session <- getSession fuel sessionId;
  await t <- date_now;
  let newExpiresAt := expiresAt session + additionalMinutes * 60000 in
  let session' := with_expiry session newExpiresAt t in
  let ttl := (newExpiresAt - t) / 1000 in
  await_ redis_setex sessionId ttl session';
  ret session'.

(** The sweep, [cleanupExpiredSessions]; its outer [try/catch] only logs. *)
Fixpoint cleanup_loop (keys : list string) : M unit :=
  match keys with
  | [] => ret tt
  | key :: rest =>
      await data <- redis_get key;
      await_
        match data with
        | Some session =>
            await t <- date_now;
            if expiresAt session <? t
            then
              await_ redis_del key;
              redis_srem (username session) (sid session)
            else ret tt
        | None => ret tt
        end;
      cleanup_loop rest
  end.

Definition cleanupExpiredSessions : M unit :=
  try_catch (await keys <- redis_keys; cleanup_loop keys) (fun _ => ret tt).

(** [generateToken]: the signed payload; the signature itself is opaque. *)
Record Token : Set := {
  tok_sessionId : string;
  tok_username : string;
  tok_expiresInMinutes : Z
}.

Definition generateToken (cfg : Config) (sessionId user : string) : Token :=
  {| tok_sessionId := sessionId;
     tok_username := user;
     tok_expiresInMinutes := lifetimeMinutes cfg |}.

(** ** N8nService (services/n8nService.ts) *)

Inductive N8nWebhookEndpoint : Set :=
| LOGIN
| LOGIN_STATUS
| ADD_ITEMS
| SET_ADDRESS
| CHECKOUT
| ORDER_STATUS
| CANCEL_ORDER.

Definition endpoint_value (e : N8nWebhookEndpoint) : string :=
  match e with
  | LOGIN => "ubereats-login"
  | LOGIN_STATUS => "ubereats-login-status"
  | ADD_ITEMS => "ubereats-add-items"
  | SET_ADDRESS => "ubereats-set-address"
  | CHECKOUT => "ubereats-checkout"
  | ORDER_STATUS => "ubereats-order-status"
  | CANCEL_ORDER => "ubereats-cancel-order"
  end.

(** [Object.values(N8nWebhookEndpoint)] *)
Definition all_endpoints : list N8nWebhookEndpoint :=
  [LOGIN; LOGIN_STATUS; ADD_ITEMS; SET_ADDRESS; CHECKOUT; ORDER_STATUS; CANCEL_ORDER].

Definition maxFailures : Z := 5.
Definition resetTimeout : Z := 60000.

Definition closed_breaker : CircuitBreakerState :=
  {| isOpen := false; failures := 0; lastFailureTime := None; nextRetryTime := None |}.

(** The breakers the constructor installs. *)
Definition initial_breakers : gmap string CircuitBreakerState :=
  fold_left (fun m e => <[endpoint_value e := closed_breaker]> m) all_endpoints ∅.

Definition isCircuitOpen (endpoint : string) : M bool :=
  fun w =>
    match circuitBreakers w !! endpoint with
    | None => Ret false w
    | Some state =>
        if negb (isOpen state) then Ret false w
        else
          match nextRetryTime state with
          | Some retry =>
              if retry <=? now w
              then Ret false (set_circuitBreakers (insert endpoint closed_breaker) w)
              else Ret true w
          | None => Ret true w
          end
    end.

Definition recordFailure (endpoint : string) : M unit :=
  fun w =>
    match circuitBreakers w !! endpoint with
    | None => Ret tt w
    | Some state =>
        let n := failures state + 1 in
        let state' :=
          if maxFailures <=? n
          then {| isOpen := true; failures := n;
                  lastFailureTime := Some (now w);
                  nextRetryTime := Some (now w + resetTimeout) |}
          else {| isOpen := isOpen state; failures := n;
                  lastFailureTime := Some (now w);
                  nextRetryTime := nextRetryTime state |} in
        Ret tt (set_circuitBreakers (insert endpoint state') w)
    end.

Definition recordSuccess (endpoint : string) : M unit :=
  fun w =>
    match circuitBreakers w !! endpoint with
    | None => Ret tt w
    | Some state =>
        if 0 <? failures state
        then
          Ret tt (set_circuitBreakers
                    (insert endpoint
                       {| isOpen := isOpen state; failures := 0;
                          lastFailureTime := None;
                          nextRetryTime := nextRetryTime state |}) w)
        else Ret tt w
    end.

(** What the network does with one POST: how long the call takes, and
    whether the promise resolves with a body or rejects with an error. *)
Inductive AxiosOutcome : Type :=
| Resolved (data : N8nWebhookResponse)
| Rejected (e : Thrown).

Record NetReply : Type := {
  elapsed : N;
  outcome : AxiosOutcome
}.

(** [this.axios.post('/webhook/' + endpoint, payload, { timeout })]: the
    request is logged in [posts], the call takes [elapsed net]. *)
Definition axios_post (endpoint : string) (timeout : Z) (net : NetReply)
  : M N8nWebhookResponse :=
  fun w =>
    let w' := advance (Z.of_N (elapsed net)) (add_post (endpoint, timeout) w) in
    match outcome net with
    | Resolved data => Ret data w'
    | Rejected e => Throw e w'
    end.

Definition is_timeout_code (c : option string) : bool :=
  match c with
  | Some s => bool_decide (s = "ECONNABORTED") || bool_decide (s = "ETIMEDOUT")
  | None => false
  end.

(** The translation of a caught error at the end of [callWebhook]. *)
Definition translate_error (endpoint : string) (e : Thrown) : Thrown :=
  match e with
  | AxiosErr a =>
      if is_timeout_code (ax_code a)
      then ExternalServiceError "n8n timeout" (DetailsAxios a)
      else
        match ax_response a with
        | Some (st, data) =>
            ExternalServiceError ("n8n " +:+ endpoint) (DetailsStatusData st data)
        | None => ExternalServiceError "n8n connection failed" (DetailsAxios a)
        end
  | _ => e
  end.

(** [timeout || n8nConfig.timeouts.default] *)
Definition timeout_or_default (cfg : Config) (timeout : option Z) : Z :=
  match timeout with
  | Some t => if t =? 0 then timeout_default cfg else t
  | None => timeout_default cfg
  end.

Definition callWebhook (cfg : Config) (endpoint : N8nWebhookEndpoint)
  (timeout : option Z) (net : NetReply) : M N8nWebhookResponse :=
  let ep := endpoint_value endpoint in
  await open <- isCircuitOpen ep;
  if open then throw (CircuitBreakerError ("n8n " +:+ ep))
  else
    try_catch
      (await data <- axios_post ep (timeout_or_default cfg timeout) net;
       await_ recordSuccess ep;
       ret data)
      (fun e =>
         await_ recordFailure ep;
         throw (translate_error ep e)).

Definition dquote : string := String (Ascii.ascii_of_nat 34) EmptyString.

Definition manual_login_instructions : list string :=
  ["A browser window should have opened";
   "Complete the login process manually";
   "Handle any CAPTCHA or MFA challenges";
   "Click " +:+ dquote +:+ "Complete Manual Login" +:+ dquote +:+ " when done"].

Definition manual_login_started_response : N8nWebhookResponse :=
  {| r_status := manual_login_started;
     r_message := Some "Manual login process started. Complete login in browser.";
     r_cookies := None;
     r_tokens := None;
     r_sessionStorage := None;
     r_localStorage := None;
     r_storageState := None;
     r_cartTotal := None;
     r_orderConfirmationNumber := None;
     r_estimatedDeliveryTime := None;
     r_instructions := Some manual_login_instructions |}.

(** [login]: the webhook payload is opaque to the gateway and is left out. *)
Definition login (cfg : Config) (sessionId user password : string)
  (manualMode : bool) (net : NetReply) : M N8nWebhookResponse :=
  let timeout :=
    if manualMode then timeout_manualLogin cfg else timeout_default cfg in
  try_catch
    (callWebhook cfg LOGIN (Some timeout) net)
    (fun e =>
       if manualMode
          && is_ExternalServiceError e
          && bool_decide (details_status (thrown_details e) = JStr "ECONNABORTED")
       then ret manual_login_started_response
       else throw e).

Definition checkLoginStatus (cfg : Config) (sessionId user : string)
  (net : NetReply) : M N8nWebhookResponse :=
  callWebhook cfg LOGIN_STATUS (Some (timeout_loginStatus cfg)) net.

Definition addItems (cfg : Config) (sessionId : string) (net : NetReply)
  : M N8nWebhookResponse :=
  callWebhook cfg ADD_ITEMS None net.

Definition setDeliveryAddress (cfg : Config) (sessionId : string) (net : NetReply)
  : M N8nWebhookResponse :=
  callWebhook cfg SET_ADDRESS None net.

Definition checkout (cfg : Config) (sessionId : string) (net : NetReply)
  : M N8nWebhookResponse :=
  callWebhook cfg CHECKOUT None net.

Definition getOrderStatus (cfg : Config) (sessionId orderNumber : string)
  (net : NetReply) : M N8nWebhookResponse :=
  callWebhook cfg ORDER_STATUS None net.

Definition cancelOrder (cfg : Config) (sessionId orderNumber : string)
  (net : NetReply) : M N8nWebhookResponse :=
  callWebhook cfg CANCEL_ORDER None net.

(** ** Tool handlers (tools/login.ts, addItems.ts, setAddress.ts, checkout.ts)

    A handler takes the input that passed its schema; what it returns to
    the caller is a [ToolResult]. *)

Record ToolResult : Type := {
  t_status : ResponseStatus;
  t_message : string;
  t_code : option string;
  t_sessionId : option string;
  t_token : option Token;
  t_expiresAt : option Z
}.

Definition error_result (message code : string) : ToolResult :=
  {| t_status := error; t_message := message; t_code := Some code;
     t_sessionId := None; t_token := None; t_expiresAt := None |}.

(** [handleError]: an [AppError] keeps its message and code, any other
    [Error] is an INTERNAL_ERROR (with its own message, as outside
    production). *)
Definition handleError (e : Thrown) : ToolResult :=
  match e with
  | NotFoundError resource => error_result (resource +:+ " not found") "NOT_FOUND"
  | AuthenticationError message => error_result message "AUTHENTICATION_ERROR"
  | AppError message _ code => error_result message code
  | ExternalServiceError service _ =>
      error_result ("External service error: " +:+ service) "EXTERNAL_SERVICE_ERROR"
  | CircuitBreakerError service =>
      error_result ("Service temporarily unavailable: " +:+ service)
        "CIRCUIT_BREAKER_OPEN"
  | ReplyError message => error_result message "INTERNAL_ERROR"
  | AxiosErr _ => error_result "Request failed" "INTERNAL_ERROR"
  | OtherError message => error_result message "INTERNAL_ERROR"
  end.

Record LoginInput : Type := {
  li_username : string;
  li_password : string;
  li_manualMode : bool;
  li_metadata : option Metadata
}.

(** The update both login handlers write after a successful answer. *)
Definition login_updates (r : N8nWebhookResponse) (t : Z) : SessionUpdateOptions :=
  {| u_status := Some ACTIVE;
     u_cookies := Some (default ∅ (r_cookies r));
     u_tokens := Some (default ∅ (r_tokens r));
     u_sessionStorage := Some (default ∅ (r_sessionStorage r));
     u_localStorage := Some (default ∅ (r_localStorage r));
     u_storageState := r_storageState r;
     u_loginCompletedAt := Some t |}.

(** The inner [try] of [loginHandler], entered once the session exists. *)
Definition login_attempt (cfg : Config) (fuel : nat) (input : LoginInput)
  (session : SessionData) (net : NetReply) : M ToolResult :=
  try_catch
    (await n8nResponse <-
       login cfg (sid session) (li_username input) (li_password input)
         (li_manualMode input) net;
     match r_status n8nResponse with
     | success =>
         await t <- date_now;
         await_ updateSession fuel (sid session) (login_updates n8nResponse t);
         ret {| t_status := success;
                t_message := "Successfully logged in";
                t_code := None;
                t_sessionId := Some (sid session);
                t_token :=
                  Some (generateToken cfg (sid session) (li_username input));
                t_expiresAt := Some (expiresAt session) |}
     | manual_login_started =>
         ret {| t_status := manual_login_started;
                t_message :=
                  default "Manual login started. Complete login in browser."
                    (r_message n8nResponse);
                t_code := None;
                t_sessionId := Some (sid session);
                t_token := None;
                t_expiresAt := None |}
     | _ =>
         await_ deleteSession fuel (sid session);
         ret (error_result (default "Login failed" (r_message n8nResponse))
                "LOGIN_FAILED")
     end)
    (fun e =>
       await_ deleteSession fuel (sid session);
       throw e).

Definition login_options (input : LoginInput) : SessionCreateOptions :=
  {| c_username := li_username input;
     c_status :=
       Some (if li_manualMode input then MANUAL_LOGIN_PENDING else ACTIVE);
     c_lifetimeMinutes := None;
     c_metadata := li_metadata input |}.

Definition loginHandler (cfg : Config) (fuel : nat) (input : LoginInput)
  (uuid : string) (net : NetReply) : M ToolResult :=
  try_catch
    (await session <- createSession cfg (login_options input) uuid;
     login_attempt cfg fuel input session net)
    (fun e => ret (handleError e)).

Definition completeLoginHandler (cfg : Config) (fuel : nat) (sessionId : string)
  (net : NetReply) : M ToolResult :=
  try_catch
    (await session <- getSession fuel sessionId;
     if bool_decide (status session = ACTIVE) && bool_decide (is_Some (loginCompletedAt session))
     then
       ret {| t_status := success;
              t_message := "Session already logged in";
              t_code := None;
              t_sessionId := Some (sid session);
              t_token := Some (generateToken cfg (sid session) (username session));
              t_expiresAt := Some (expiresAt session) |}
     else if bool_decide (status session ≠ MANUAL_LOGIN_PENDING)
             && bool_decide (status session ≠ ACTIVE)
     then
       ret (error_result "Session is not in a valid state for login completion"
              "INVALID_STATE")
     else
       await n8nResponse <-
         checkLoginStatus cfg (sid session) (username session) net;
       match r_status n8nResponse with
       | success =>
           await t <- date_now;
           await_ updateSession fuel (sid session) (login_updates n8nResponse t);
           ret {| t_status := success;
                  t_message := "Login completed successfully";
                  t_code := None;
                  t_sessionId := Some (sid session);
                  t_token :=
                    Some (generateToken cfg (sid session) (username session));
                  t_expiresAt := Some (expiresAt session) |}
       | login_incomplete =>
           ret {| t_status := login_incomplete;
                  t_message :=
                    default
                      "Login not yet completed. Please finish the login process in the browser."
                      (r_message n8nResponse);
                  t_code := None;
                  t_sessionId := Some (sid session);
                  t_token := None;
                  t_expiresAt := None |}
       | _ =>
           ret (error_result
                  (default "Failed to complete login" (r_message n8nResponse))
                  "LOGIN_COMPLETION_FAILED")
       end)
    (fun e => ret (handleError e)).

Definition success_result (message : string) : ToolResult :=
  {| t_status := success; t_message := message; t_code := None;
     t_sessionId := None; t_token := None; t_expiresAt := None |}.

Definition logoutHandler (fuel : nat) (sessionId : string) : M ToolResult :=
  try_catch
    (await_ deleteSession fuel sessionId;
     ret (success_result "Successfully logged out"))
    (fun e => ret (handleError e)).

Definition not_active : Thrown :=
  AuthenticationError "Session is not active. Please complete login first.".

Definition addItemsHandler (cfg : Config) (fuel : nat) (sessionId : string)
  (net : NetReply) : M ToolResult :=
  try_catch
    (await session <- getSession fuel sessionId;
     if bool_decide (status session ≠ ACTIVE) then throw not_active
     else
       await n8nResponse <- addItems cfg (sid session) net;
       match r_status n8nResponse with
       | success => ret (success_result "Items added to cart successfully")
       | _ =>
           ret (error_result
                  (default "Failed to add items to cart" (r_message n8nResponse))
                  "ADD_ITEMS_FAILED")
       end)
    (fun e => ret (handleError e)).

Definition setAddressHandler (cfg : Config) (fuel : nat) (sessionId : string)
  (net : NetReply) : M ToolResult :=
  try_catch
    (await session <- getSession fuel sessionId;
     if bool_decide (status session ≠ ACTIVE) then throw not_active
     else
       await n8nResponse <- setDeliveryAddress cfg (sid session) net;
       match r_status n8nResponse with
       | success => ret (success_result "Delivery address set successfully")
       | _ =>
           ret (error_result
                  (default "Failed to set delivery address" (r_message n8nResponse))
                  "SET_ADDRESS_FAILED")
       end)
    (fun e => ret (handleError e)).

Definition checkoutHandler (cfg : Config) (fuel : nat) (sessionId : string)
  (net : NetReply) : M ToolResult :=
  try_catch
    (await session <- getSession fuel sessionId;
     if bool_decide (status session ≠ ACTIVE) then throw not_active
     else
       await n8nResponse <- checkout cfg (sid session) net;
       match r_status n8nResponse with
       | success => ret (success_result "Order placed successfully")
       | _ =>
           ret (error_result (default "Checkout failed" (r_message n8nResponse))
                  "CHECKOUT_FAILED")
       end)
    (fun e => ret (handleError e)).

(** ** Vocabulary of the session properties *)

(** The world after a [DEL] of the record and an [SREM] of its identifier
    from the owner's set. *)
Definition deleted (sessionId : string) (w : World) (owner : string) : World :=
  set_sets (insert owner (smembers_of w owner ∖ {[sessionId]}))
    (set_kv (delete sessionId) w).

(** Key-by-key merge: the keys of the partial take its values, every other
    key keeps the stored value; an absent partial leaves the map alone. *)
Definition merged (old : gmap string string) (upd : option (gmap string string))
  (new : gmap string string) : Prop :=
  match upd with
  | Some m =>
      forall k, new !! k = match m !! k with Some v => Some v | None => old !! k end
  | None => new = old
  end.

(** The remaining time-to-live, in whole seconds, that [updateSession]
    computes for a record read at the instant [t]. *)
Definition remaining_ttl (session : SessionData) (t : Z) : Z :=
  (expiresAt session - t) / 1000.

(** The number of session records Redis holds. *)
Definition count (w : World) : Z := Z.of_nat (size (kv w)).

(** The world after the [SETEX] and [SADD] of a successful [createSession]. *)
Definition created (cfg : Config) (options : SessionCreateOptions)
  (uuid : string) (session : SessionData) (w : World) : World :=
  set_sets (insert (c_username options)
              ({[uuid]} ∪ smembers_of w (c_username options)))
    (set_kv (insert uuid (expiresAt session, session)) w).

Definition capacity_exceeded : Thrown :=
  AppError "Maximum session limit reached" 503 "MAX_SESSIONS_EXCEEDED".

(** ** Vocabulary of the ceiling invariant *)

Definition world_of {A} (r : Res A) : option World :=
  match r with
  | Ret _ w => Some w
  | Throw _ w => Some w
  | OutOfFuel => None
  end.

Definition no_new_keys (w w' : World) : Prop := dom (kv w') ⊆ dom (kv w).

Definition keeps_keys {A} (m : M A) : Prop :=
  forall w w', world_of (m w) = Some w' -> no_new_keys w w'.






(** ** Vocabulary of the gateway properties *)

Definition breaker_of (w : World) (endpoint : N8nWebhookEndpoint)
  : option CircuitBreakerState :=
  circuitBreakers w !! endpoint_value endpoint.

Definition breakers_closed (w : World) : Prop :=
  forall endpoint,
  exists state, breaker_of w endpoint = Some state /\ isOpen state = false.

Definition is_rejected (net : NetReply) : Prop :=
  match outcome net with Rejected _ => True | Resolved _ => False end.

Definition is_timeout (net : NetReply) (a : AxiosError) : Prop :=
  outcome net = Rejected (AxiosErr a) /\ is_timeout_code (ax_code a) = true.

(** A caller waits [wait] milliseconds and then issues a call that the
    network answers with [reply]. *)
Record Attempt : Type := {
  wait : N;
  reply : NetReply
}.

Definition world_after {A} (w : World) (r : Res A) : World :=
  match r with
  | Ret _ w' => w'
  | Throw _ w' => w'
  | OutOfFuel => w
  end.

(** Calls to one endpoint, one after the other. *)
Fixpoint call_each (cfg : Config) (endpoint : N8nWebhookEndpoint)
  (timeout : option Z) (attempts : list Attempt) (w : World) : World :=
  match attempts with
  | [] => w
  | a :: rest =>
      let w1 := advance (Z.of_N (wait a)) w in
      call_each cfg endpoint timeout rest
        (world_after w1 (callWebhook cfg endpoint timeout (reply a) w1))
  end.

(** The breaker after one more recorded failure at the instant [t]. *)
Definition failed_once (state : CircuitBreakerState) (t : Z) : CircuitBreakerState :=
  if maxFailures <=? failures state + 1
  then {| isOpen := true; failures := failures state + 1;
          lastFailureTime := Some t;
          nextRetryTime := Some (t + resetTimeout) |}
  else {| isOpen := isOpen state; failures := failures state + 1;
          lastFailureTime := Some t;
          nextRetryTime := nextRetryTime state |}.

(** A gateway call never writes to Redis: afterwards the store is the one
    before the call, or the one before the call aged by the time the
    request took. *)
Definition store_aged (dt : Z) (w w' : World) : Prop :=
  sets w' = sets w
  /\ ((kv w' = kv w /\ now w' = now w)
      \/ (kv w' = kv (advance dt w) /\ now w' = now w + dt)).

(** The claim C9 as stated: after the handler, the session record holds
    the carried state of the engine's answer merged into the stored one. *)
Definition carried_state_persisted (data : N8nWebhookResponse)
  (before : SessionData) (w' : World) : Prop :=
  exists deadline after,
    kv w' !! sid before = Some (deadline, after)
    /\ cookies after = merge_field (cookies before) (r_cookies data)
    /\ tokens after = merge_field (tokens before) (r_tokens data)
    /\ sessionStorage after
       = merge_field (sessionStorage before) (r_sessionStorage data)
    /\ localStorage after
       = merge_field (localStorage before) (r_localStorage data).

(** ** Example inputs *)

Definition cfg1 : Config :=
  {| lifetimeMinutes := 60;
     maxSessions := 1;
     timeout_default := 60000;
     timeout_manualLogin := 10000;
     timeout_loginStatus := 30000 |}.

Definition alice : string := "alice@example.com".

Definition alice_session : SessionData :=
  {| sid := "s1";
     username := alice;
     status := ACTIVE;
     createdAt := 0;
     updatedAt := 0;
     expiresAt := 3600000;
     loginCompletedAt := None;
     cookies := {[ "b" := "2" ]};
     tokens := ∅;
     sessionStorage := ∅;
     localStorage := ∅;
     storageState := None;
     metadata := None |}.

(** One session of one hour, created at time 0 and written by a [SETEX]
    that reached Redis [lag] milliseconds later; the clock reads [t]. *)
Definition alice_world (lag t : Z) : World :=
  {| now := t;
     kv := {[ "s1" := (3600000 + lag, alice_session) ]};
     sets := {[ alice := {[ "s1" ]} ]};
     circuitBreakers := initial_breakers;
     posts := [] |}.


Definition empty_world : World :=
  {| now := 0; kv := ∅; sets := ∅;
     circuitBreakers := initial_breakers; posts := [] |}.

Definition alice_options : SessionCreateOptions :=
  {| c_username := alice; c_status := None;
     c_lifetimeMinutes := None; c_metadata := None |}.

Definition alice_login : LoginInput :=
  {| li_username := alice;
     li_password := "secret";
     li_manualMode := false;
     li_metadata := None |}.

Definition cookie_update : SessionUpdateOptions :=
  {| u_status := None;
     u_cookies := Some {[ "a" := "1" ]};
     u_tokens := None;
     u_sessionStorage := None;
     u_localStorage := None;
     u_storageState := None;
     u_loginCompletedAt := None |}.

Definition pending_session : SessionData :=
  {| sid := "s2";
     username := alice;
     status := MANUAL_LOGIN_PENDING;
     createdAt := 0;
     updatedAt := 0;
     expiresAt := 3600000;
     loginCompletedAt := None;
     cookies := ∅;
     tokens := ∅;
     sessionStorage := ∅;
     localStorage := ∅;
     storageState := None;
     metadata := None |}.

Definition pending_world : World :=
  {| now := 1000;
     kv := {[ "s2" := (3600000, pending_session) ]};
     sets := {[ alice := {[ "s2" ]} ]};
     circuitBreakers := initial_breakers;
     posts := [] |}.

Definition connection_refused : NetReply :=
  {| elapsed := 100;
     outcome :=
       Rejected (AxiosErr {| ax_code := Some "ECONNREFUSED"; ax_response := None |}) |}.


Definition manual_login_timeout : NetReply :=
  {| elapsed := 10000;
     outcome :=
       Rejected (AxiosErr {| ax_code := Some "ECONNABORTED"; ax_response := None |}) |}.

Definition success_with_cookie : N8nWebhookResponse :=
  {| r_status := success;
     r_message := None;
     r_cookies := Some {[ "a" := "1" ]};
     r_tokens := None;
     r_sessionStorage := None;
     r_localStorage := None;
     r_storageState := None;
     r_cartTotal := Some "12.50";
     r_orderConfirmationNumber := None;
     r_estimatedDeliveryTime := None;
     r_instructions := None |}.

Definition cart_success : NetReply :=
  {| elapsed := 200; outcome := Resolved success_with_cookie |}.

Definition login_rejected : NetReply :=
  {| elapsed := 200;
     outcome :=
       Resolved
         {| r_status := error;
            r_message := Some "Invalid credentials";
            r_cookies := None;
            r_tokens := None;
            r_sessionStorage := None;
            r_localStorage := None;
            r_storageState := None;
            r_cartTotal := None;
            r_orderConfirmationNumber := None;
            r_estimatedDeliveryTime := None;
            r_instructions := None |} |}.

(** ** Vocabulary of the further properties *)

(** The requests a call has added to the log. *)
Definition sent {A} (w : World) (r : Res A) : list (string * Z) :=
  drop (length (posts w)) (posts (world_after w r)).

(** The answer of the two login handlers once the engine has confirmed
    the login. *)
Definition logged_in (cfg : Config) (message : string) (session : SessionData)
  : ToolResult :=
  {| t_status := success;
     t_message := message;
     t_code := None;
     t_sessionId := Some (sid session);
     t_token := Some (generateToken cfg (sid session) (username session));
     t_expiresAt := Some (expiresAt session) |}.

(** The stored record [stored] is [session] after a completed login at the
    instant [t] that brought the carried state of [data]. *)
Definition login_recorded (data : N8nWebhookResponse) (t : Z)
  (session stored : SessionData) : Prop :=
  status stored = ACTIVE
  /\ loginCompletedAt stored = Some t
  /\ updatedAt stored = t
  /\ merged (cookies session) (Some (default ∅ (r_cookies data))) (cookies stored)
  /\ merged (tokens session) (Some (default ∅ (r_tokens data))) (tokens stored)
  /\ merged (sessionStorage session) (Some (default ∅ (r_sessionStorage data)))
       (sessionStorage stored)
  /\ merged (localStorage session) (Some (default ∅ (r_localStorage data)))
       (localStorage stored)
  /\ storageState stored = storageState session
  /\ sid stored = sid session
  /\ username stored = username session
  /\ createdAt stored = createdAt session
  /\ expiresAt stored = expiresAt session.

(** The three tools that act on a logged-in session, with the endpoint
    each one calls and the code each one reports when the engine answers
    with a failure. *)
Inductive CartTool : Set := AddItemsTool | SetAddressTool | CheckoutTool.

Definition cart_handler (tool : CartTool)
  : Config -> nat -> string -> NetReply -> M ToolResult :=
  match tool with
  | AddItemsTool => addItemsHandler
  | SetAddressTool => setAddressHandler
  | CheckoutTool => checkoutHandler
  end.

Definition cart_endpoint (tool : CartTool) : N8nWebhookEndpoint :=
  match tool with
  | AddItemsTool => ADD_ITEMS
  | SetAddressTool => SET_ADDRESS
  | CheckoutTool => CHECKOUT
  end.

Definition cart_failure_code (tool : CartTool) : string :=
  match tool with
  | AddItemsTool => "ADD_ITEMS_FAILED"
  | SetAddressTool => "SET_ADDRESS_FAILED"
  | CheckoutTool => "CHECKOUT_FAILED"
  end.

Definition cart_success_message (tool : CartTool) : string :=
  match tool with
  | AddItemsTool => "Items added to cart successfully"
  | SetAddressTool => "Delivery address set successfully"
  | CheckoutTool => "Order placed successfully"
  end.

Definition cart_failure_message (tool : CartTool) : string :=
  match tool with
  | AddItemsTool => "Failed to add items to cart"
  | SetAddressTool => "Failed to set delivery address"
  | CheckoutTool => "Checkout failed"
  end.

(** ** Further example inputs *)

Definition three_refused : list Attempt :=
  replicate 3 {| wait := 0; reply := connection_refused |}.

Definition cfg_no_manual_budget : Config :=
  {| lifetimeMinutes := 60; maxSessions := 1;
     timeout_default := 60000; timeout_manualLogin := 0;
     timeout_loginStatus := 30000 |}.

Definition logged_in_session : SessionData :=
  apply_updates alice_session (login_updates success_with_cookie 500) 500.

Definition logged_in_world : World :=
  {| now := 1000;
     kv := {[ "s1" := (3600000, logged_in_session) ]};
     sets := {[ alice := {[ "s1" ]} ]};
     circuitBreakers := initial_breakers;
     posts := [] |}.

Definition still_pending : NetReply :=
  {| elapsed := 200;
     outcome :=
       Resolved
         {| r_status := login_incomplete;
            r_message := None;
            r_cookies := None;
            r_tokens := None;
            r_sessionStorage := None;
            r_localStorage := None;
            r_storageState := None;
            r_cartTotal := None;
            r_orderConfirmationNumber := None;
            r_estimatedDeliveryTime := None;
            r_instructions := None |} |}.

Definition alice_manual_login : LoginInput :=
  {| li_username := alice;
     li_password := "secret";
     li_manualMode := true;
     li_metadata := None |}.

Definition browser_opened : NetReply :=
  {| elapsed := 500; outcome := Resolved manual_login_started_response |}.

Definition cookie_update_again : SessionUpdateOptions :=
  {| u_status := None;
     u_cookies := Some {[ "a" := "9" ]};
     u_tokens := None;
     u_sessionStorage := None;
     u_localStorage := None;
     u_storageState := None;
     u_loginCompletedAt := None |}.

(** * Properties *)

Ltac run :=
  cbv beta delta
    [bind ret throw try_catch gets modify date_now redis_get redis_del
     redis_keys redis_smembers redis_sadd redis_srem getActiveSessionCount] in *;
  cbn beta iota in *.

Section getSession_facts.

Variables (sessionId : string) (w : World).

Lemma getSession_absent fuel :
  kv w !! sessionId = None ->
  getSession (S fuel) sessionId w = Throw (NotFoundError "Session") w.
Proof.
  intros Hnone. cbn [getSession]. run. by rewrite Hnone.
Qed.

Lemma getSession_live fuel deadline session :
  kv w !! sessionId = Some (deadline, session) ->
  now w <= expiresAt session ->
  getSession (S fuel) sessionId w = Ret session w.
Proof.
  intros Hsome Hlive. cbn [getSession]. run. rewrite Hsome. cbn.
  destruct (Z.ltb_spec (expiresAt session) (now w)); [lia | done].
Qed.

Lemma getSession_stale fuel deadline session :
  kv w !! sessionId = Some (deadline, session) ->
  expiresAt session < now w ->
  getSession fuel sessionId w = OutOfFuel.
Proof.
  intros Hsome Hstale. induction fuel as [|fuel IH]; [done|].
  cbn [getSession]. run. rewrite Hsome. cbn.
  destruct (Z.ltb_spec (expiresAt session) (now w)); [|lia].
  unfold deleteSession_with. run. by rewrite IH.
Qed.

(** Whatever the fuel, a call of [getSession] that comes back has either
    read a live record or found none: it leaves the world as it was. *)
Lemma getSession_cases fuel :
  getSession fuel sessionId w = OutOfFuel
  \/ (exists deadline session,
         kv w !! sessionId = Some (deadline, session)
         /\ now w <= expiresAt session
         /\ getSession fuel sessionId w = Ret session w)
  \/ (kv w !! sessionId = None
      /\ getSession fuel sessionId w = Throw (NotFoundError "Session") w).
Proof.
  destruct fuel as [|fuel]; [by left|].
  destruct (kv w !! sessionId) as [[deadline session]|] eqn:Hkv.
  - destruct (Z.ltb_spec (expiresAt session) (now w)).
    + left. by eapply getSession_stale.
    + right. left. exists deadline, session.
      split; [done|]. split; [done|]. by eapply getSession_live.
  - right. right. split; [done|]. by apply getSession_absent.
Qed.

(** In particular no call of [getSession] ends with "Session expired": the
    only error it ever throws is the one for an absent record. *)
Lemma getSession_never_expired fuel e w' :
  getSession fuel sessionId w = Throw e w' ->
  e = NotFoundError "Session" /\ w' = w /\ kv w !! sessionId = None.
Proof.
  destruct (getSession_cases fuel)
    as [-> | [(deadline & session & _ & _ & ->) | [Hnone ->]]]; [done..|].
  by intros [= <- <-].
Qed.

End getSession_facts.

Section deleteSession_facts.

Variables (sessionId : string) (w : World).

Lemma deleteSession_absent fuel :
  kv w !! sessionId = None ->
  deleteSession (S fuel) sessionId w = Ret tt w.
Proof.
  intros Hnone. unfold deleteSession, deleteSession_with.
  unfold try_catch, bind at 1. by rewrite getSession_absent.
Qed.

Lemma deleteSession_live fuel deadline session :
  kv w !! sessionId = Some (deadline, session) ->
  now w <= expiresAt session ->
  deleteSession (S fuel) sessionId w = Ret tt (deleted sessionId w (username session)).
Proof.
  intros Hsome Hlive. unfold deleteSession, deleteSession_with.
  unfold try_catch, bind at 1. by erewrite getSession_live.
Qed.

Lemma deleteSession_stale fuel deadline session :
  kv w !! sessionId = Some (deadline, session) ->
  expiresAt session < now w ->
  deleteSession fuel sessionId w = OutOfFuel.
Proof.
  intros Hsome Hstale. unfold deleteSession, deleteSession_with.
  unfold try_catch, bind at 1. by erewrite getSession_stale.
Qed.

Lemma deleted_lookup owner : kv (deleted sessionId w owner) !! sessionId = None.
Proof. cbn. apply lookup_delete_eq. Qed.

Lemma deleted_not_member owner :
  sessionId ∉ smembers_of (deleted sessionId w owner) owner.
Proof.
  unfold smembers_of at 1. cbn. rewrite lookup_insert_eq. cbn. set_solver.
Qed.

End deleteSession_facts.

(** On a record that is live or absent, [deleteSession] removes the record,
    takes the identifier out of the owner's set, and a second call changes
    nothing more. *)
Lemma deleteSession_twice sessionId w fuel fuel' :
  (forall deadline session,
      kv w !! sessionId = Some (deadline, session) -> now w <= expiresAt session) ->
  exists w',
    deleteSession (S fuel) sessionId w = Ret tt w'
    /\ kv w' !! sessionId = None
    /\ deleteSession (S fuel') sessionId w' = Ret tt w'.
Proof.
  intros Hlive.
  destruct (kv w !! sessionId) as [[deadline session]|] eqn:Hkv.
  - exists (deleted sessionId w (username session)).
    split; [by eapply deleteSession_live; eauto|].
    split; [apply deleted_lookup|].
    apply deleteSession_absent, deleted_lookup.
  - exists w. split; [by apply deleteSession_absent|].
    split; [done|]. by apply deleteSession_absent.
Qed.

Lemma merge_field_merged old upd : merged old upd (merge_field old upd).
Proof.
  destruct upd as [m|]; cbn; [|done].
  intros k. unfold spread. rewrite lookup_union.
  by destruct (m !! k), (old !! k).
Qed.

Lemma updateSession_live fuel sessionId updates w deadline session :
  kv w !! sessionId = Some (deadline, session) ->
  now w <= expiresAt session ->
  updateSession (S fuel) sessionId updates w =
    let session' := apply_updates session updates (now w) in
    let ttl := remaining_ttl session (now w) in
    Ret session'
      (if 0 <? ttl
       then set_kv (insert sessionId (now w + ttl * 1000, session')) w
       else w).
Proof.
  intros Hsome Hlive. unfold updateSession, bind at 1.
  erewrite getSession_live by done. run. unfold remaining_ttl. cbn.
  destruct (0 <? _) eqn:Httl; [|done].
  unfold redis_setex. cbn.
  destruct (Z.leb_spec ((expiresAt session - now w) / 1000) 0); [|done].
  apply Z.ltb_lt in Httl. lia.
Qed.

Lemma remaining_ttl_deadline session t :
  t + remaining_ttl session t * 1000 <= expiresAt session.
Proof.
  unfold remaining_ttl.
  pose proof (Z.mul_div_le (expiresAt session - t) 1000). lia.
Qed.

(** ** The claims about [getSession] and [updateSession] *)



(** C2.  On a stored, unexpired session [updateSession] returns the merged
    session: the status is the supplied one if any, each of the four maps
    is merged key by key, [expiresAt] is the stored one.  With a positive
    remaining time-to-live the merged session is written under a Redis
    deadline that does not go past [expiresAt], and nothing else in the
    world changes; otherwise the world is left as it was. *)
Theorem updateSession_merges fuel sessionId updates w deadline session :
  kv w !! sessionId = Some (deadline, session) ->
  now w <= expiresAt session ->
  exists session' w',
    updateSession (S fuel) sessionId updates w = Ret session' w'
    /\ status session' = default (status session) (u_status updates)
    /\ merged (cookies session) (u_cookies updates) (cookies session')
    /\ merged (tokens session) (u_tokens updates) (tokens session')
    /\ merged (sessionStorage session) (u_sessionStorage updates)
         (sessionStorage session')
    /\ merged (localStorage session) (u_localStorage updates)
         (localStorage session')
    /\ expiresAt session' = expiresAt session
    /\ (0 < remaining_ttl session (now w) ->
        exists deadline',
          w' = set_kv (insert sessionId (deadline', session')) w
          /\ deadline' = now w + remaining_ttl session (now w) * 1000
          /\ deadline' <= expiresAt session)
    /\ (remaining_ttl session (now w) <= 0 -> w' = w).
Proof.
  intros Hsome Hlive. eexists _, _.
  split; [by eapply updateSession_live|]. cbn.
  repeat (split; [done || apply merge_field_merged|]).
  split.
  - intros Hpos. apply Z.ltb_lt in Hpos as ->.
    eexists. split; [done|]. split; [done|]. apply remaining_ttl_deadline.
  - intros Hnonpos.
    by destruct (Z.ltb_spec 0 (remaining_ttl session (now w))); [lia|].
Qed.

Lemma updateSession_merges_witness :
  exists session' w',
    updateSession 1 "s1" cookie_update (alice_world 0 1000) = Ret session' w'
    /\ cookies session' !! "a" = Some "1"
    /\ cookies session' !! "b" = Some "2"
    /\ expiresAt session' = 3600000
    /\ kv w' !! "s1" = Some (3600000, session').
Proof.
  destruct (updateSession_merges 0 "s1" cookie_update (alice_world 0 1000)
              3600000 alice_session)
    as (session' & w' & Heq & _ & Hcookies & _ & _ & _ & Hexp & Hwritten & _);
    [reflexivity | vm_compute; discriminate |].
  exists session', w'. split; [exact Heq|].
  split; [exact (Hcookies "a")|]. split; [exact (Hcookies "b")|].
  split; [exact Hexp|].
  destruct Hwritten as (deadline' & -> & -> & _); [by vm_compute|].
  cbn. by rewrite lookup_insert_eq.
Defined.



(** ** [getUserSessions] *)






Lemma smembers_of_srem w key member other :
  smembers_of (set_sets (insert key (smembers_of w key ∖ {[member]})) w) other
  = if decide (key = other) then smembers_of w key ∖ {[member]}
    else smembers_of w other.
Proof.
  unfold smembers_of at 1. cbn. rewrite lookup_insert.
  by destruct (decide (key = other)).
Qed.

Lemma getUserSessions_loop_ok fuel user sessionIds sessions w :
  (forall sessionId deadline session,
      sessionId ∈ sessionIds ->
      kv w !! sessionId = Some (deadline, session) ->
      now w <= expiresAt session) ->
  exists sessions' w',
    getUserSessions_loop (S fuel) user sessionIds sessions w = Ret sessions' w'
    /\ kv w' = kv w
    /\ now w' = now w
    /\ (forall s, s ∈ sessions' <->
                  s ∈ sessions
                  \/ exists sessionId deadline,
                       sessionId ∈ sessionIds
                       /\ kv w !! sessionId = Some (deadline, s))
    /\ (forall sessionId,
           sessionId ∈ smembers_of w' user <->
           sessionId ∈ smembers_of w user
           /\ (sessionId ∈ sessionIds -> is_Some (kv w !! sessionId))).
Proof.
  revert sessions w.
  induction sessionIds as [|x rest IH]; intros sessions w Hlive.
  - exists sessions, w. cbn. split; [done|]. split; [done|]. split; [done|].
    split; intros s.
    + split; [by left|].
      intros [?|(? & ? & Hin & _)]; [done|]. by apply elem_of_nil in Hin.
    + split; [|by intros [? _]].
      intros ?. split; [done|]. intros Hin. by apply elem_of_nil in Hin.
  - cbn [getUserSessions_loop]. unfold bind at 1, try_catch, bind at 1.
    destruct (kv w !! x) as [[deadline session]|] eqn:Hkv.
    + erewrite getSession_live; [|done|]; last first.
      { eapply Hlive; [|done]. set_solver. }
      cbn.
      destruct (IH (sessions ++ [session]) w)
        as (ss & w' & -> & Hkv' & Hnow & Hss & Hidx).
      { intros ? ? ? ?. apply Hlive. set_solver. }
      exists ss, w'. split; [done|]. split; [done|]. split; [done|].
      split; intros s.
      * rewrite Hss. split.
        -- intros [Hs|(i & d & Hi & Hs)].
           ++ apply elem_of_app in Hs as [?|Hs]; [by left|].
              apply list_elem_of_singleton in Hs as ->.
              right. exists x, deadline. split; [set_solver|done].
           ++ right. exists i, d. split; [set_solver|done].
        -- intros [Hs|(i & d & Hi & Hs)].
           ++ left. set_solver.
           ++ apply elem_of_cons in Hi as [->|Hi].
              ** left. rewrite Hkv in Hs. set_solver.
              ** right. by exists i, d.
      * rewrite Hidx. split.
        -- intros [Hm Hi]. split; [done|].
           intros [->|?]%elem_of_cons; [by rewrite Hkv|by apply Hi].
        -- intros [Hm Hi]. split; [done|]. intros ?. apply Hi. set_solver.
    + rewrite getSession_absent by done. run.
      set (w1 := set_sets _ w).
      destruct (IH sessions w1) as (ss & w' & -> & Hkv' & Hnow & Hss & Hidx).
      { intros ? ? ? ?. apply Hlive. set_solver. }
      exists ss, w'. split; [done|]. split; [done|]. split; [done|].
      split; intros s.
      * rewrite Hss. split.
        -- intros [Hs|(i & d & Hi & Hs)]; [by left|].
           right. exists i, d. split; [set_solver|done].
        -- intros [Hs|(i & d & Hi & Hs)]; [by left|].
           apply elem_of_cons in Hi as [->|Hi].
           ++ by rewrite Hkv in Hs.
           ++ right. by exists i, d.
      * rewrite Hidx. subst w1. rewrite smembers_of_srem.
        rewrite decide_True by done. cbn. split.
        -- intros [[Hm Hx]%elem_of_difference Hi]. split; [done|].
           intros [->|?]%elem_of_cons; [set_solver|by apply Hi].
        -- intros [Hm Hi]. split.
           ++ apply elem_of_difference. split; [done|].
              intros ->%elem_of_singleton.
              destruct Hi as [? Hi]; [set_solver|]. by rewrite Hkv in Hi.
           ++ intros ?. apply Hi. set_solver.
Qed.

(** Without a stale record behind the owner's set, [getUserSessions]
    returns exactly the stored sessions the set names, all unexpired, and
    leaves in the set exactly the identifiers that have a record. *)
Lemma getUserSessions_prunes_missing fuel user w :
  (forall sessionId deadline session,
      sessionId ∈ smembers_of w user ->
      kv w !! sessionId = Some (deadline, session) ->
      now w <= expiresAt session) ->
  exists sessions w',
    getUserSessions (S fuel) user w = Ret sessions w'
    /\ kv w' = kv w
    /\ (forall s, s ∈ sessions <->
                  exists sessionId deadline,
                    sessionId ∈ smembers_of w user
                    /\ kv w !! sessionId = Some (deadline, s))
    /\ (forall s, s ∈ sessions -> now w <= expiresAt s)
    /\ (forall sessionId,
           sessionId ∈ smembers_of w' user <->
           sessionId ∈ smembers_of w user /\ is_Some (kv w !! sessionId)).
Proof.
  intros Hlive. unfold getUserSessions. run.
  destruct (getUserSessions_loop_ok fuel user (elements (smembers_of w user)) [] w)
    as (ss & w' & Heq & Hkv & _ & Hss & Hidx).
  { intros i d s Hi. apply Hlive. by apply elem_of_elements. }
  exists ss, w'. split; [done|]. split; [done|].
  assert (forall s, s ∈ ss <->
            exists sessionId deadline,
              sessionId ∈ smembers_of w user
              /\ kv w !! sessionId = Some (deadline, s)) as Hss'.
  { intros s. rewrite Hss. split.
    - intros [Hs|(i & d & Hi & Hs)]; [by apply elem_of_nil in Hs|].
      exists i, d. by rewrite <- elem_of_elements.
    - intros (i & d & Hi & Hs). right. exists i, d.
      by rewrite elem_of_elements. }
  split; [done|]. split.
  - intros s (i & d & Hi & Hs)%Hss'. by eapply Hlive.
  - intros i. rewrite Hidx. split.
    + intros [Hm Hi]. split; [done|]. by apply Hi, elem_of_elements.
    + intros [Hm Hi]. done.
Qed.

(** ** The session ceiling *)

Lemma keys_count w : Z.of_nat (length (elements (dom (kv w)))) = count w.
Proof.
  unfold count. f_equal. by rewrite <- (size_dom (D := gset string)).
Qed.

Lemma getActiveSessionCount_count w : getActiveSessionCount w = Ret (count w) w.
Proof.
  unfold getActiveSessionCount. run. by rewrite keys_count.
Qed.

Lemma createSession_full cfg options uuid w :
  maxSessions cfg <= count w ->
  createSession cfg options uuid w = Throw capacity_exceeded w.
Proof.
  intros Hfull. unfold createSession, bind at 1. cbn. rewrite keys_count.
  by destruct (Z.leb_spec (maxSessions cfg) (count w)); [|lia].
Qed.

Lemma createSession_ok cfg options uuid w :
  count w < maxSessions cfg ->
  0 < lifetime_of cfg options ->
  createSession cfg options uuid w
  = let session := new_session cfg options uuid (now w) in
    Ret session (created cfg options uuid session w).
Proof.
  intros Hroom Hlife. unfold createSession, bind at 1. cbn. rewrite keys_count.
  destruct (Z.leb_spec (maxSessions cfg) (count w)); [lia|].
  unfold bind at 1, redis_setex.
  replace (now w + lifetime_of cfg options * 60000 - now w)
    with (lifetime_of cfg options * 60 * 1000) by lia.
  rewrite Z.div_mul by lia.
  destruct (Z.leb_spec (lifetime_of cfg options * 60) 0); [lia|].
  run. unfold created, new_session. cbn.
  by replace (now w + lifetime_of cfg options * 60 * 1000)
    with (now w + lifetime_of cfg options * 60000) by lia.
Qed.


Lemma count_created cfg options uuid session w :
  count (created cfg options uuid session w) <= count w + 1.
Proof.
  unfold count, created. cbn [kv set_sets set_kv].
  rewrite map_size_insert. destruct (kv w !! uuid); unfold id; lia.
Qed.

(** *** No operation other than [createSession] adds a key *)

Lemma no_new_keys_refl w : no_new_keys w w.
Proof. unfold no_new_keys. set_solver. Qed.

Lemma no_new_keys_trans w1 w2 w3 :
  no_new_keys w1 w2 -> no_new_keys w2 w3 -> no_new_keys w1 w3.
Proof. unfold no_new_keys. set_solver. Qed.


Create HintDb keys.

Lemma keeps_ret {A} (a : A) : keeps_keys (ret a).
Proof. intros w w' [= <-]. apply no_new_keys_refl. Qed.

Lemma keeps_throw {A} e : keeps_keys (@throw A e).
Proof. intros w w' [= <-]. apply no_new_keys_refl. Qed.

Lemma keeps_gets {A} (f : World -> A) : keeps_keys (gets f).
Proof. intros w w' [= <-]. apply no_new_keys_refl. Qed.

Lemma keeps_bind {A B} (m : M A) (k : A -> M B) :
  keeps_keys m -> (forall a, keeps_keys (k a)) -> keeps_keys (bind m k).
Proof.
  intros Hm Hk w w'. unfold bind.
  destruct (m w) as [a w1|e w1|] eqn:Hmw; cbn; [|intros [= <-]|done].
  - intros Hw'. eapply no_new_keys_trans; [|by eapply Hk].
    apply Hm. by rewrite Hmw.
  - apply Hm. by rewrite Hmw.
Qed.

Lemma keeps_try_catch {A} (m : M A) (h : Thrown -> M A) :
  keeps_keys m -> (forall e, keeps_keys (h e)) -> keeps_keys (try_catch m h).
Proof.
  intros Hm Hh w w'. unfold try_catch.
  destruct (m w) as [a w1|e w1|] eqn:Hmw; cbn; [intros [= <-]| |done].
  - apply Hm. by rewrite Hmw.
  - intros Hw'. eapply no_new_keys_trans; [|by eapply Hh].
    apply Hm. by rewrite Hmw.
Qed.

Lemma keeps_if {A} (b : bool) (m1 m2 : M A) :
  keeps_keys m1 -> keeps_keys m2 -> keeps_keys (if b then m1 else m2).
Proof. by destruct b. Qed.

Lemma keeps_date_now : keeps_keys date_now.
Proof. apply keeps_gets. Qed.

Lemma keeps_redis_get key : keeps_keys (redis_get key).
Proof. apply keeps_gets. Qed.

Lemma keeps_redis_keys : keeps_keys redis_keys.
Proof. apply keeps_gets. Qed.

Lemma keeps_redis_smembers key : keeps_keys (redis_smembers key).
Proof. apply keeps_gets. Qed.

Lemma keeps_redis_del key : keeps_keys (redis_del key).
Proof.
  intros w w' [= <-]. unfold no_new_keys. cbn. rewrite dom_delete_L. set_solver.
Qed.

Lemma keeps_redis_sadd key member : keeps_keys (redis_sadd key member).
Proof. intros w w' [= <-]. unfold no_new_keys. cbn. set_solver. Qed.

Lemma keeps_redis_srem key member : keeps_keys (redis_srem key member).
Proof. intros w w' [= <-]. unfold no_new_keys. cbn. set_solver. Qed.

Lemma keeps_getSession fuel sessionId : keeps_keys (getSession fuel sessionId).
Proof.
  intros w w'.
  destruct (getSession_cases sessionId w fuel)
    as [-> | [(d & s & _ & _ & ->) | [_ ->]]]; [done|..];
    intros [= <-]; apply no_new_keys_refl.
Qed.

#[export] Hint Resolve keeps_ret keeps_throw keeps_gets keeps_date_now
  keeps_redis_get keeps_redis_keys keeps_redis_smembers keeps_redis_del
  keeps_redis_sadd keeps_redis_srem keeps_getSession : keys.

(** Splits a computation along [bind], [try_catch] and its branches. *)
Ltac keys :=
  repeat
    (intros;
     match goal with
     | |- keeps_keys (bind _ _) => apply keeps_bind
     | |- keeps_keys (try_catch _ _) => apply keeps_try_catch
     | |- keeps_keys (if _ then _ else _) => apply keeps_if
     | |- keeps_keys (match ?x with _ => _ end) => destruct x
     | |- keeps_keys _ => solve [auto with keys]
     end).

Lemma keeps_deleteSession fuel sessionId : keeps_keys (deleteSession fuel sessionId).
Proof. unfold deleteSession, deleteSession_with. keys. Qed.

Lemma keeps_validateSession fuel sessionId :
  keeps_keys (validateSession fuel sessionId).
Proof. unfold validateSession. keys. Qed.

Lemma keeps_setex_present key ttl value w w' :
  is_Some (kv w !! key) ->
  world_of (redis_setex key ttl value w) = Some w' ->
  no_new_keys w w'.
Proof.
  intros Hin. unfold redis_setex.
  destruct (ttl <=? 0); intros [= <-]; [apply no_new_keys_refl|].
  unfold no_new_keys. cbn. rewrite dom_insert_L.
  apply elem_of_dom in Hin. set_solver.
Qed.

Lemma keeps_updateSession fuel sessionId updates :
  keeps_keys (updateSession fuel sessionId updates).
Proof.
  intros w w'. unfold updateSession, bind at 1.
  destruct (getSession_cases sessionId w fuel)
    as [-> | [(d & s & Hkv & _ & ->) | [_ ->]]]; [done| |].
  - run. destruct (0 <? _); [|intros [= <-]; apply no_new_keys_refl].
    destruct (redis_setex _ _ _ w) as [[] w1|e w1|] eqn:Hset; [| |done].
    + intros [= <-]. eapply keeps_setex_present; [by rewrite Hkv|by rewrite Hset].
    + intros [= <-]. eapply keeps_setex_present; [by rewrite Hkv|by rewrite Hset].
  - intros [= <-]. apply no_new_keys_refl.
Qed.

Lemma keeps_extendSession fuel sessionId additionalMinutes :
  keeps_keys (extendSession fuel sessionId additionalMinutes).
Proof.
  intros w w'. unfold extendSession, bind at 1.
  destruct (getSession_cases sessionId w fuel)
    as [-> | [(d & s & Hkv & _ & ->) | [_ ->]]]; [done| |].
  - run.
    destruct (redis_setex _ _ _ w) as [[] w1|e w1|] eqn:Hset; [| |done].
    + intros [= <-]. eapply keeps_setex_present; [by rewrite Hkv|by rewrite Hset].
    + intros [= <-]. eapply keeps_setex_present; [by rewrite Hkv|by rewrite Hset].
  - intros [= <-]. apply no_new_keys_refl.
Qed.

#[export] Hint Resolve keeps_deleteSession keeps_validateSession
  keeps_updateSession keeps_extendSession : keys.

Lemma keeps_getUserSessions_loop fuel user sessionIds sessions :
  keeps_keys (getUserSessions_loop fuel user sessionIds sessions).
Proof.
  revert sessions. induction sessionIds as [|x rest IH]; intros sessions;
    cbn [getUserSessions_loop]; keys.
Qed.

Lemma keeps_getUserSessions fuel user : keeps_keys (getUserSessions fuel user).
Proof.
  unfold getUserSessions. keys. intros. apply keeps_getUserSessions_loop.
Qed.

Lemma keeps_cleanup_loop redisKeys : keeps_keys (cleanup_loop redisKeys).
Proof.
  induction redisKeys as [|key rest IH]; cbn [cleanup_loop]; keys.
Qed.

Lemma keeps_cleanupExpiredSessions : keeps_keys cleanupExpiredSessions.
Proof.
  unfold cleanupExpiredSessions. keys. intros. apply keeps_cleanup_loop.
Qed.

#[export] Hint Resolve keeps_getUserSessions keeps_cleanupExpiredSessions : keys.

Lemma no_new_keys_same_kv w w' : kv w' = kv w -> no_new_keys w w'.
Proof. unfold no_new_keys. by intros ->. Qed.

Lemma no_new_keys_advance dt w : no_new_keys w (advance dt w).
Proof. unfold no_new_keys. cbn. apply dom_filter_subseteq. Qed.

Lemma keeps_isCircuitOpen endpoint : keeps_keys (isCircuitOpen endpoint).
Proof.
  intros w w'. unfold isCircuitOpen.
  destruct (circuitBreakers w !! endpoint) as [state|];
    [|intros [= <-]; by apply no_new_keys_same_kv].
  destruct (negb (isOpen state)); [intros [= <-]; by apply no_new_keys_same_kv|].
  destruct (nextRetryTime state) as [retry|];
    [|intros [= <-]; by apply no_new_keys_same_kv].
  destruct (retry <=? now w); intros [= <-]; by apply no_new_keys_same_kv.
Qed.

Lemma keeps_recordFailure endpoint : keeps_keys (recordFailure endpoint).
Proof.
  intros w w'. unfold recordFailure.
  destruct (circuitBreakers w !! endpoint) as [state|];
    intros [= <-]; by apply no_new_keys_same_kv.
Qed.

Lemma keeps_recordSuccess endpoint : keeps_keys (recordSuccess endpoint).
Proof.
  intros w w'. unfold recordSuccess.
  destruct (circuitBreakers w !! endpoint) as [state|];
    [|intros [= <-]; by apply no_new_keys_same_kv].
  destruct (0 <? failures state); intros [= <-]; by apply no_new_keys_same_kv.
Qed.

Lemma keeps_axios_post endpoint timeout net :
  keeps_keys (axios_post endpoint timeout net).
Proof.
  intros w w'. unfold axios_post.
  destruct (outcome net); intros [= <-];
    apply (no_new_keys_advance _ (add_post _ w)).
Qed.

#[export] Hint Resolve keeps_isCircuitOpen keeps_recordFailure
  keeps_recordSuccess keeps_axios_post : keys.

Lemma keeps_callWebhook cfg endpoint timeout net :
  keeps_keys (callWebhook cfg endpoint timeout net).
Proof. unfold callWebhook. keys. Qed.

#[export] Hint Resolve keeps_callWebhook : keys.

Lemma keeps_login cfg sessionId user password manualMode net :
  keeps_keys (login cfg sessionId user password manualMode net).
Proof. unfold login. keys. Qed.

Lemma keeps_checkLoginStatus cfg sessionId user net :
  keeps_keys (checkLoginStatus cfg sessionId user net).
Proof. unfold checkLoginStatus. keys. Qed.

Lemma keeps_addItems cfg sessionId net : keeps_keys (addItems cfg sessionId net).
Proof. unfold addItems. keys. Qed.

Lemma keeps_setDeliveryAddress cfg sessionId net :
  keeps_keys (setDeliveryAddress cfg sessionId net).
Proof. unfold setDeliveryAddress. keys. Qed.

Lemma keeps_checkout cfg sessionId net : keeps_keys (checkout cfg sessionId net).
Proof. unfold checkout. keys. Qed.

#[export] Hint Resolve keeps_login keeps_checkLoginStatus keeps_addItems
  keeps_setDeliveryAddress keeps_checkout : keys.






(** *** The ceiling as an invariant *)










(** ** The circuit breaker *)

Lemma initial_breakers_all endpoint :
  initial_breakers !! endpoint_value endpoint = Some closed_breaker.
Proof. by destruct endpoint. Qed.

Lemma breaker_of_advance dt w endpoint :
  breaker_of (advance dt w) endpoint = breaker_of w endpoint.
Proof. done. Qed.

Lemma callWebhook_closed_rejected cfg endpoint timeout net w state e :
  breaker_of w endpoint = Some state ->
  isOpen state = false ->
  outcome net = Rejected e ->
  let ep := endpoint_value endpoint in
  let w1 := advance (Z.of_N (elapsed net))
              (add_post (ep, timeout_or_default cfg timeout) w) in
  callWebhook cfg endpoint timeout net w
  = Throw (translate_error ep e)
      (set_circuitBreakers (insert ep (failed_once state (now w1))) w1).
Proof.
  intros Hstate Hclosed Hrej. unfold breaker_of in Hstate.
  unfold callWebhook, bind at 1, isCircuitOpen.
  rewrite Hstate, Hclosed. cbn [negb].
  unfold try_catch, bind at 1, axios_post. rewrite Hrej.
  unfold bind, recordFailure. cbn [circuitBreakers advance add_post].
  rewrite Hstate. unfold throw, failed_once. cbn [now advance add_post].
  by destruct (maxFailures <=? failures state + 1).
Qed.

Lemma callWebhook_closed_resolved cfg endpoint timeout net w state data :
  breaker_of w endpoint = Some state ->
  isOpen state = false ->
  outcome net = Resolved data ->
  exists w',
    callWebhook cfg endpoint timeout net w = Ret data w'
    /\ posts w' = posts w ++ [(endpoint_value endpoint, timeout_or_default cfg timeout)]
    /\ kv w' = kv (advance (Z.of_N (elapsed net)) w)
    /\ sets w' = sets w
    /\ exists state',
         breaker_of w' endpoint = Some state'
         /\ isOpen state' = false
         /\ failures state' = Z.min 0 (failures state).
Proof.
  intros Hstate Hclosed Hres. unfold breaker_of in *.
  unfold callWebhook, bind at 1, isCircuitOpen.
  rewrite Hstate, Hclosed. cbn [negb].
  unfold try_catch, bind at 1, axios_post. rewrite Hres.
  unfold bind, recordSuccess. cbn [circuitBreakers advance add_post].
  rewrite Hstate.
  destruct (Z.ltb_spec 0 (failures state)).
  - eexists. split; [done|]. do 3 (split; [done|]).
    eexists. cbn. rewrite lookup_insert_eq. split; [done|].
    split; [done|]. cbn. lia.
  - eexists. split; [done|]. do 3 (split; [done|]).
    exists state. split; [done|]. split; [done|]. lia.
Qed.

Lemma callWebhook_open_cooling cfg endpoint timeout net w state retry :
  breaker_of w endpoint = Some state ->
  isOpen state = true ->
  nextRetryTime state = Some retry ->
  now w < retry ->
  callWebhook cfg endpoint timeout net w
  = Throw (CircuitBreakerError ("n8n " +:+ endpoint_value endpoint)) w.
Proof.
  intros Hstate Hopen Hretry Hcool. unfold breaker_of in Hstate.
  unfold callWebhook, bind at 1, isCircuitOpen.
  rewrite Hstate, Hopen, Hretry. cbn [negb].
  by destruct (Z.leb_spec retry (now w)); [lia|].
Qed.





(** An attempted call: the request is posted and the answer is the
    network's. *)
Lemma callWebhook_closed_attempt cfg endpoint timeout net w state :
  breaker_of w endpoint = Some state ->
  isOpen state = false ->
  exists w',
    posts w' = posts w ++ [(endpoint_value endpoint, timeout_or_default cfg timeout)]
    /\ callWebhook cfg endpoint timeout net w
       = match outcome net with
         | Resolved data => Ret data w'
         | Rejected e => Throw (translate_error (endpoint_value endpoint) e) w'
         end.
Proof.
  intros Hstate Hclosed. destruct (outcome net) as [data|e] eqn:Hout.
  - destruct (callWebhook_closed_resolved cfg endpoint timeout net w state data)
      as (w' & -> & Hposts & _); [done..|]. by exists w'.
  - erewrite callWebhook_closed_rejected by done.
    eexists. split; [|reflexivity]. reflexivity.
Qed.



(** ** Manual login and time-outs *)

Lemma ax_status_not_string a s : ax_status a <> JStr s.
Proof.
  unfold ax_status. destruct (ax_response a) as [[st data]|]; [|done].
  by destruct (st =? 0).
Qed.

Lemma details_status_not_string d s : details_status d <> JStr s.
Proof.
  destruct d; cbn; [done| |done]. apply ax_status_not_string.
Qed.

(** The [catch] of [login] never takes its special branch: the [status] it
    tests is never a string. *)
Lemma login_is_callWebhook cfg sessionId user password manualMode net w :
  login cfg sessionId user password manualMode net w
  = callWebhook cfg LOGIN
      (Some (if manualMode then timeout_manualLogin cfg else timeout_default cfg))
      net w.
Proof.
  unfold login, try_catch.
  destruct (callWebhook _ _ _ _ w) as [data w'|e w'|]; [done| |done].
  rewrite bool_decide_eq_false_2 by apply details_status_not_string.
  by rewrite andb_false_r.
Qed.

(** C5 (code defect).  The claim: a manual-login call that times out is
    answered with [manual_login_started] while the time-out still counts as
    a failure for the breaker.  The failure is counted, but the answer is
    the thrown [ExternalServiceError]: [login] looks for the time-out code
    in [details.status], and the details are the [AxiosError], whose code
    is in [code] and whose [status] is the HTTP status of a response. *)
Theorem login_manual_timeout_throws cfg sessionId user password net w state a :
  breaker_of w LOGIN = Some state ->
  isOpen state = false ->
  is_timeout net a ->
  exists w',
    login cfg sessionId user password true net w
    = Throw (ExternalServiceError "n8n timeout" (DetailsAxios a)) w'
    /\ breaker_of w' LOGIN = Some (failed_once state (now w'))
    /\ posts w' = posts w ++ [(endpoint_value LOGIN, timeout_or_default cfg
                                 (Some (timeout_manualLogin cfg)))].
Proof.
  intros Hstate Hclosed [Hout Hcode].
  rewrite login_is_callWebhook.
  erewrite callWebhook_closed_rejected by done.
  cbn [translate_error]. rewrite Hcode.
  eexists. split; [done|]. split; [|done].
  unfold breaker_of. cbn. by rewrite lookup_insert_eq.
Qed.

Lemma login_manual_timeout_throws_witness :
  exists w',
    login cfg1 "s1" alice "secret" true manual_login_timeout empty_world
    = Throw (ExternalServiceError "n8n timeout"
               (DetailsAxios {| ax_code := Some "ECONNABORTED";
                                ax_response := None |})) w'
    /\ (failures <$> breaker_of w' LOGIN) = Some 1.
Proof.
  destruct (login_manual_timeout_throws cfg1 "s1" alice "secret"
              manual_login_timeout empty_world closed_breaker
              {| ax_code := Some "ECONNABORTED"; ax_response := None |})
    as (w' & Heq & Hbreaker & _);
    [reflexivity | reflexivity | split; reflexivity |].
  exists w'. split; [exact Heq|]. by rewrite Hbreaker.
Defined.

(** ** What the gateway and the tool handlers do to the store *)

Lemma callWebhook_world cfg endpoint timeout net w :
  exists w', world_of (callWebhook cfg endpoint timeout net w) = Some w'
             /\ store_aged (Z.of_N (elapsed net)) w w'.
Proof.
  unfold callWebhook, bind, try_catch, isCircuitOpen, axios_post,
    recordSuccess, recordFailure, throw, ret, store_aged.
  repeat (case_match; simplify_eq/=); eexists; (split; [done|]);
    (split; [done|]); (by left) || (by right).
Qed.

Lemma store_aged_lookup dt w w' key deadline session :
  store_aged dt w w' ->
  kv w !! key = Some (deadline, session) ->
  0 <= dt ->
  now w <= deadline ->
  (kv w' !! key = Some (deadline, session) /\ now w' <= deadline)
  \/ (kv w' !! key = None /\ deadline < now w').
Proof.
  intros (_ & [[-> ->]|[-> ->]]) Hsome Hdt Hdeadline; [by left|].
  cbn [kv advance].
  destruct (decide (now w + dt <= deadline)) as [Hle|Hgt].
  - left. split; [|done]. by apply map_lookup_filter_Some.
  - right. split; [|lia]. apply map_lookup_filter_None. right.
    intros x Hx. rewrite Hsome in Hx. injection Hx as <-. cbn. lia.
Qed.

Lemma store_aged_subseteq dt w w' : store_aged dt w w' -> kv w' ⊆ kv w.
Proof.
  intros (_ & [[-> _]|[-> _]]); [done|]. apply map_filter_subseteq.
Qed.

Lemma getSession_active_then fuel sessionId w deadline session {A}
  (k : SessionData -> M A) :
  kv w !! sessionId = Some (deadline, session) ->
  now w <= expiresAt session ->
  bind (getSession (S fuel) sessionId) k w = k session w.
Proof.
  intros Hsome Hlive. unfold bind. by erewrite getSession_live.
Qed.

(** The three cart handlers share one shape; this runs any of them up to
    the gateway call and through the success branch. *)
Ltac cart_handler Hsome Hlive Hactive Hcall Hok :=
  unfold try_catch;
  erewrite getSession_active_then by done;
  rewrite Hactive; cbn [bool_decide decide_rel];
  rewrite bool_decide_eq_false_2 by (by intros ?);
  unfold bind, addItems, setDeliveryAddress, checkout;
  rewrite Hcall, Hok; reflexivity.

Lemma addItemsHandler_success cfg fuel sessionId net w deadline session data w1 :
  kv w !! sessionId = Some (deadline, session) ->
  now w <= expiresAt session ->
  status session = ACTIVE ->
  callWebhook cfg ADD_ITEMS None net w = Ret data w1 ->
  r_status data = success ->
  addItemsHandler cfg (S fuel) sessionId net w
  = Ret (success_result "Items added to cart successfully") w1.
Proof.
  intros Hsome Hlive Hactive Hcall Hok. unfold addItemsHandler.
  cart_handler Hsome Hlive Hactive Hcall Hok.
Qed.

Lemma setAddressHandler_success cfg fuel sessionId net w deadline session data w1 :
  kv w !! sessionId = Some (deadline, session) ->
  now w <= expiresAt session ->
  status session = ACTIVE ->
  callWebhook cfg SET_ADDRESS None net w = Ret data w1 ->
  r_status data = success ->
  setAddressHandler cfg (S fuel) sessionId net w
  = Ret (success_result "Delivery address set successfully") w1.
Proof.
  intros Hsome Hlive Hactive Hcall Hok. unfold setAddressHandler.
  cart_handler Hsome Hlive Hactive Hcall Hok.
Qed.

Lemma checkoutHandler_success cfg fuel sessionId net w deadline session data w1 :
  kv w !! sessionId = Some (deadline, session) ->
  now w <= expiresAt session ->
  status session = ACTIVE ->
  callWebhook cfg CHECKOUT None net w = Ret data w1 ->
  r_status data = success ->
  checkoutHandler cfg (S fuel) sessionId net w
  = Ret (success_result "Order placed successfully") w1.
Proof.
  intros Hsome Hlive Hactive Hcall Hok. unfold checkoutHandler.
  cart_handler Hsome Hlive Hactive Hcall Hok.
Qed.

(** C9 (amended).  When the engine answers a cart, address or checkout call
    with success, the handler returns the success outcome and writes
    nothing: afterwards Redis holds the records it held before the call,
    less those whose time-to-live ran out while the call was in flight,
    and the owner sets are untouched. *)
Theorem cart_handlers_do_not_persist cfg fuel sessionId net w deadline session data :
  kv w !! sessionId = Some (deadline, session) ->
  now w <= expiresAt session ->
  status session = ACTIVE ->
  breakers_closed w ->
  outcome net = Resolved data ->
  r_status data = success ->
  let aged := kv (advance (Z.of_N (elapsed net)) w) in
  (exists w',
      addItemsHandler cfg (S fuel) sessionId net w
      = Ret (success_result "Items added to cart successfully") w'
      /\ kv w' = aged /\ sets w' = sets w)
  /\ (exists w',
         setAddressHandler cfg (S fuel) sessionId net w
         = Ret (success_result "Delivery address set successfully") w'
         /\ kv w' = aged /\ sets w' = sets w)
  /\ (exists w',
         checkoutHandler cfg (S fuel) sessionId net w
         = Ret (success_result "Order placed successfully") w'
         /\ kv w' = aged /\ sets w' = sets w).
Proof.
  intros Hsome Hlive Hactive Hclosed Hout Hok aged.
  split; [|split].
  - destruct (Hclosed ADD_ITEMS) as (state & Hstate & Hisclosed).
    destruct (callWebhook_closed_resolved cfg ADD_ITEMS None net w state data)
      as (w' & Hcall & _ & Hkv & Hsets & _); [done..|].
    exists w'. split; [|done]. by eapply addItemsHandler_success.
  - destruct (Hclosed SET_ADDRESS) as (state & Hstate & Hisclosed).
    destruct (callWebhook_closed_resolved cfg SET_ADDRESS None net w state data)
      as (w' & Hcall & _ & Hkv & Hsets & _); [done..|].
    exists w'. split; [|done]. by eapply setAddressHandler_success.
  - destruct (Hclosed CHECKOUT) as (state & Hstate & Hisclosed).
    destruct (callWebhook_closed_resolved cfg CHECKOUT None net w state data)
      as (w' & Hcall & _ & Hkv & Hsets & _); [done..|].
    exists w'. split; [|done]. by eapply checkoutHandler_success.
Qed.

Lemma alice_world_breakers_closed lag t : breakers_closed (alice_world lag t).
Proof.
  intros endpoint. exists closed_breaker. split; [|done].
  apply initial_breakers_all.
Qed.

Lemma cart_handlers_do_not_persist_witness :
  exists w1 w2 w3,
    addItemsHandler cfg1 1 "s1" cart_success (alice_world 0 1000)
    = Ret (success_result "Items added to cart successfully") w1
    /\ setAddressHandler cfg1 1 "s1" cart_success (alice_world 0 1000)
       = Ret (success_result "Delivery address set successfully") w2
    /\ checkoutHandler cfg1 1 "s1" cart_success (alice_world 0 1000)
       = Ret (success_result "Order placed successfully") w3
    /\ kv w1 !! "s1" = Some (3600000, alice_session)
    /\ kv w2 !! "s1" = Some (3600000, alice_session)
    /\ kv w3 !! "s1" = Some (3600000, alice_session).
Proof.
  pose proof (cart_handlers_do_not_persist cfg1 0 "s1" cart_success
                (alice_world 0 1000) 3600000 alice_session success_with_cookie
                eq_refl) as Hcart.
  destruct Hcart as ((w1 & H1 & Hkv1 & _) & (w2 & H2 & Hkv2 & _)
                     & (w3 & H3 & Hkv3 & _));
    [by vm_compute | reflexivity | apply alice_world_breakers_closed
    | reflexivity | reflexivity |].
  exists w1, w2, w3. rewrite Hkv1, Hkv2, Hkv3.
  repeat (split; [assumption|]).
  assert (kv (advance (Z.of_N (elapsed cart_success)) (alice_world 0 1000)) !! "s1"
          = Some (3600000, alice_session)) as Hkept by (vm_compute; reflexivity).
  by repeat split.
Defined.

(** C9 as stated fails: [addItemsHandler] answers success to a reply that
    carries a new cookie, and the stored session still has the old cookie
    map. *)
Lemma addItemsHandler_drops_carried_state :
  exists w',
    addItemsHandler cfg1 1 "s1" cart_success (alice_world 0 1000)
    = Ret (success_result "Items added to cart successfully") w'
    /\ ~ carried_state_persisted success_with_cookie alice_session w'.
Proof.
  destruct (callWebhook_closed_resolved cfg1 ADD_ITEMS None cart_success
              (alice_world 0 1000) closed_breaker success_with_cookie)
    as (w' & Hcall & _ & Hkv & _);
    [apply initial_breakers_all | reflexivity | reflexivity |].
  exists w'. split.
  - eapply (addItemsHandler_success cfg1 0 "s1" cart_success (alice_world 0 1000)
              3600000 alice_session);
      [reflexivity | by vm_compute | reflexivity | exact Hcall | reflexivity].
  - intros (deadline & after & Hlookup & Hcookies & _).
    rewrite Hkv in Hlookup. vm_compute in Hlookup.
    injection Hlookup as <- <-.
    apply (f_equal (fun m => m !! "a")) in Hcookies.
    vm_compute in Hcookies. discriminate.
Qed.

(** ** Cleaning up after a failed login *)

Lemma deleteSession_removes fuel sessionId w :
  (forall deadline session,
      kv w !! sessionId = Some (deadline, session) -> now w <= expiresAt session) ->
  exists w', deleteSession (S fuel) sessionId w = Ret tt w'
             /\ kv w' !! sessionId = None.
Proof.
  intros Hlive.
  destruct (deleteSession_twice sessionId w fuel fuel Hlive) as (w' & Hdel & Hgone & _).
  by exists w'.
Qed.

Lemma updateSession_absent fuel sessionId updates w :
  kv w !! sessionId = None ->
  updateSession (S fuel) sessionId updates w = Throw (NotFoundError "Session") w.
Proof.
  intros Hnone. unfold updateSession, bind at 1.
  by rewrite getSession_absent.
Qed.

Lemma login_attempt_cleans cfg fuel input session net w :
  kv w !! sid session = Some (expiresAt session, session) ->
  now w <= expiresAt session ->
  match login_attempt cfg (S fuel) input session net w with
  | Ret result w' => t_status result = error -> kv w' !! sid session = None
  | Throw _ w' => kv w' !! sid session = None
  | OutOfFuel => False
  end.
Proof.
  intros Hsome Hlive. unfold login_attempt, try_catch. unfold bind at 1.
  rewrite login_is_callWebhook.
  destruct (callWebhook_world cfg LOGIN
              (Some (if li_manualMode input then timeout_manualLogin cfg
                     else timeout_default cfg)) net w) as (w2 & Hw2 & Haged).
  pose proof (store_aged_lookup _ _ _ _ _ _ Haged Hsome (N2Z.is_nonneg _) Hlive)
    as Hlookup.
  assert (forall deadline s,
             kv w2 !! sid session = Some (deadline, s) -> now w2 <= expiresAt s)
    as Hnostale.
  { intros deadline s Hs. destruct Hlookup as [[Hkept ?]|[Hgone _]].
    - rewrite Hkept in Hs. by injection Hs as <- <-.
    - by rewrite Hgone in Hs. }
  destruct (deleteSession_removes fuel (sid session) w2 Hnostale)
    as (w3 & Hdel & Hgone3).
  destruct (callWebhook _ _ _ _ w) as [response w2'|e w2'|];
    cbn in Hw2; [| |done]; injection Hw2 as ->.
  - destruct (r_status response) eqn:Hstatus.
    + (* success: the update writes, or finds the record gone *)
      run. destruct Hlookup as [[Hkept Hfresh]|[Hgone _]].
      * erewrite updateSession_live by done. cbn. discriminate.
      * rewrite updateSession_absent by done. rewrite Hdel. by cbn.
    + unfold bind. rewrite Hdel. by cbn.
    + cbn. discriminate.
    + unfold bind. rewrite Hdel. by cbn.
  - unfold bind. rewrite Hdel. by cbn.
Qed.

Lemma handleError_status e : t_status (handleError e) = error.
Proof. by destruct e. Qed.

(** C8 (amended).  Once [loginHandler] has created its session, whatever
    the engine answers, the handler returns a result, and if that result is
    a failure no record of the session is left in the store. *)
Theorem loginHandler_failure_deletes_session cfg fuel input uuid net w :
  count w < maxSessions cfg ->
  0 < lifetimeMinutes cfg ->
  exists result w',
    loginHandler cfg (S fuel) input uuid net w = Ret result w'
    /\ (t_status result = error -> kv w' !! uuid = None).
Proof.
  intros Hroom Hlife. unfold loginHandler, try_catch. unfold bind at 1.
  rewrite createSession_ok by done. cbv beta iota zeta.
  pose proof (login_attempt_cleans cfg fuel input
                (new_session cfg (login_options input) uuid (now w)) net
                (created cfg (login_options input) uuid
                   (new_session cfg (login_options input) uuid (now w)) w))
    as Hclean.
  assert (kv (created cfg (login_options input) uuid
                (new_session cfg (login_options input) uuid (now w)) w) !! uuid
          = Some (expiresAt (new_session cfg (login_options input) uuid (now w)),
                  new_session cfg (login_options input) uuid (now w))) as Hstored.
  { unfold created. cbn. by rewrite lookup_insert_eq. }
  assert (now w <= expiresAt (new_session cfg (login_options input) uuid (now w)))
    as Hfresh.
  { cbn. unfold lifetime_of. cbn. lia. }
  specialize (Hclean Hstored Hfresh).
  destruct (login_attempt _ _ _ _ _ _) as [result w'|e w'|];
    [| |destruct Hclean].
  - exists result, w'. split; [done|]. exact Hclean.
  - exists (handleError e), w'. split; [done|]. intros _. exact Hclean.
Qed.

Lemma loginHandler_failure_deletes_session_witness :
  exists result w',
    loginHandler cfg1 1 alice_login "s1" connection_refused empty_world
    = Ret result w'
    /\ t_status result = error
    /\ kv w' !! "s1" = None.
Proof.
  destruct (loginHandler_failure_deletes_session cfg1 0 alice_login "s1"
              connection_refused empty_world)
    as (result & w' & Heq & Hclean); [by vm_compute | reflexivity |].
  assert (t_status result = error) as Hfailed.
  { pose proof Heq as Hrun. vm_compute in Hrun.
    injection Hrun as Hresult _. by rewrite <- Hresult. }
  exists result, w'. split; [exact Heq|]. split; [exact Hfailed|].
  exact (Hclean Hfailed).
Defined.

(** C8 as stated fails for the confirmation: [completeLoginHandler]
    reports the failed confirmation and the session record stays stored. *)
Lemma completeLoginHandler_failure_keeps_session :
  exists w',
    completeLoginHandler cfg1 1 "s2" login_rejected pending_world
    = Ret (error_result "Invalid credentials" "LOGIN_COMPLETION_FAILED") w'
    /\ kv w' !! "s2" = Some (3600000, pending_session).
Proof.
  eexists. split; [vm_compute; reflexivity|]. vm_compute. reflexivity.
Qed.

(** A failed confirmation never removes the session: the record is still
    stored afterwards unless its Redis time-to-live ran out meanwhile. *)
Lemma completeLoginHandler_never_deletes cfg fuel sessionId net w deadline session :
  kv w !! sessionId = Some (deadline, session) ->
  sid session = sessionId ->
  now w <= deadline ->
  deadline <= expiresAt session ->
  exists result w',
    completeLoginHandler cfg (S fuel) sessionId net w = Ret result w'
    /\ (t_status result = error ->
        now w' <= deadline ->
        kv w' !! sessionId = Some (deadline, session)).
Proof.
  intros Hsome Hsid Hdeadline Hexpires.
  unfold completeLoginHandler, try_catch.
  erewrite getSession_active_then by (done || lia).
  destruct (bool_decide (status session = ACTIVE)
            && bool_decide (is_Some (loginCompletedAt session))).
  { eexists _, _. split; [done|]. cbn. discriminate. }
  destruct (bool_decide (status session ≠ MANUAL_LOGIN_PENDING)
            && bool_decide (status session ≠ ACTIVE)).
  { eexists _, _. split; [done|]. by intros _ _. }
  unfold bind at 1, checkLoginStatus.
  destruct (callWebhook_world cfg LOGIN_STATUS (Some (timeout_loginStatus cfg)) net w)
    as (w2 & Hw2 & Haged).
  pose proof (store_aged_lookup _ _ _ _ _ _ Haged Hsome (N2Z.is_nonneg _) Hdeadline)
    as Hlookup.
  assert (now w2 <= deadline -> kv w2 !! sessionId = Some (deadline, session))
    as Hkept.
  { intros Hle. destruct Hlookup as [[? _]|[_ ?]]; [done|lia]. }
  destruct (callWebhook _ _ _ _ w) as [response w2'|e w2'|];
    cbn in Hw2; [| |done]; injection Hw2 as ->.
  - destruct (r_status response) eqn:Hstatus.
    + run. rewrite Hsid. destruct Hlookup as [[Hstill Hle]|[Hgone Hgt]].
      * erewrite updateSession_live by (done || lia). cbn.
        eexists _, _. split; [done|]. cbn. discriminate.
      * rewrite updateSession_absent by done.
        eexists _, _. split; [done|]. intros _ ?. lia.
    + eexists _, _. split; [done|]. by intros _.
    + eexists _, _. split; [done|]. by intros _.
    + eexists _, _. split; [done|]. cbn. discriminate.
  - eexists _, _. split; [done|]. by intros _.
Qed.

(** * Further properties of the session service *)



(** X2.  [extendSession] has no guard on the new time-to-live: when the
    extension leaves less than a second (a negative extension, say), the
    [SETEX] is refused, the call ends with that error and the stored
    record keeps its old deadline. *)
Theorem extendSession_refused fuel sessionId additionalMinutes w deadline session :
  kv w !! sessionId = Some (deadline, session) ->
  now w <= expiresAt session ->
  (expiresAt session + additionalMinutes * 60000 - now w) / 1000 <= 0 ->
  exists message,
    extendSession (S fuel) sessionId additionalMinutes w
    = Throw (ReplyError message) w.
Proof.
  intros Hsome Hlive Httl. unfold extendSession, bind at 1.
  erewrite getSession_live by done. run. unfold redis_setex. cbn.
  destruct (Z.leb_spec
              ((expiresAt session + additionalMinutes * 60000 - now w) / 1000) 0)
    as [_|Hgt]; [|lia].
  by eexists.
Qed.

Lemma extendSession_refused_witness :
  exists message,
    extendSession 1 "s1" (-60) (alice_world 0 1000)
    = Throw (ReplyError message) (alice_world 0 1000).
Proof.
  apply (extendSession_refused 0 "s1" (-60) (alice_world 0 1000) 3600000
           alice_session); [reflexivity | by vm_compute | by vm_compute].
Defined.

(** X3.  [validateSession] never throws: on a record that is absent it
    answers [false], on a stored unexpired record it answers whether the
    status is ACTIVE, and it leaves the world as it was. *)
Theorem validateSession_decides fuel sessionId w :
  (forall deadline session,
      kv w !! sessionId = Some (deadline, session) -> now w <= expiresAt session) ->
  validateSession (S fuel) sessionId w
  = Ret (match kv w !! sessionId with
         | Some (_, session) => bool_decide (status session = ACTIVE)
         | None => false
         end) w.
Proof.
  intros Hlive. unfold validateSession, try_catch, bind.
  destruct (kv w !! sessionId) as [[deadline session]|] eqn:Hkv.
  - by erewrite getSession_live by eauto.
  - by rewrite getSession_absent.
Qed.

Lemma validateSession_decides_witness :
  validateSession 1 "s2" pending_world = Ret false pending_world
  /\ validateSession 1 "s1" (alice_world 0 1000) = Ret true (alice_world 0 1000)
  /\ validateSession 1 "s1" empty_world = Ret false empty_world.
Proof.
  split; [|split].
  - apply (validateSession_decides 0 "s2" pending_world).
    intros deadline session Hs. vm_compute in Hs. injection Hs as <- <-.
    by vm_compute.
  - apply (validateSession_decides 0 "s1" (alice_world 0 1000)).
    intros deadline session Hs. vm_compute in Hs. injection Hs as <- <-.
    by vm_compute.
  - apply (validateSession_decides 0 "s1" empty_world).
    intros deadline session Hs. vm_compute in Hs. discriminate.
Defined.

(** ** The sweep *)

Lemma smembers_of_srem_subseteq w key member other :
  smembers_of (set_sets (insert key (smembers_of w key ∖ {[member]})) w) other
  ⊆ smembers_of w other.
Proof.
  rewrite smembers_of_srem. destruct (decide (key = other)) as [->|]; set_solver.
Qed.

(** One pass of the sweep over [keys]: the records under these keys whose
    [expiresAt] is behind the clock are gone, all other records are as they
    were, and the identifiers of the removed sessions are out of their
    owners' sets. *)
Lemma cleanup_loop_spec keys w :
  exists w',
    cleanup_loop keys w = Ret tt w'
    /\ now w' = now w
    /\ kv w' = filter (fun p => p.1 ∈ keys -> now w <= expiresAt p.2.2) (kv w)
    /\ (forall user, smembers_of w' user ⊆ smembers_of w user)
    /\ (forall key deadline session,
           key ∈ keys ->
           kv w !! key = Some (deadline, session) ->
           expiresAt session < now w ->
           sid session ∉ smembers_of w' (username session)).
Proof.
  revert w. induction keys as [|key rest IH]; intros w.
  - exists w. split; [done|]. split; [done|]. split; [|split].
    + symmetry. apply map_filter_id. intros i x _ Hin. by apply elem_of_nil in Hin.
    + done.
    + intros ? ? ? Hin. by apply elem_of_nil in Hin.
  - cbn [cleanup_loop]. run.
    destruct (kv w !! key) as [[deadline session]|] eqn:Hkey; cbn.
    + destruct (Z.ltb_spec (expiresAt session) (now w)) as [Hstale|Hlive].
      * (* expired: DEL and SREM, then the rest of the keys *)
        set (w1 := set_sets _ (set_kv (delete key) w)).
        destruct (IH w1) as (w' & -> & Hnow & Hkv & Hsets & Hpruned).
        exists w'. split; [done|]. split; [done|]. split; [|split].
        -- rewrite Hkv. subst w1. cbn [kv set_sets set_kv now].
           apply map_eq. intros i. apply option_eq. intros x.
           rewrite !map_lookup_filter_Some. cbn.
           destruct (decide (i = key)) as [->|Hne].
           ++ rewrite lookup_delete_eq, Hkey. split; [by intros [? _]|].
              intros [[= <-] Hp]. cbn in Hp.
              specialize (Hp (list_elem_of_here _ _)). lia.
           ++ rewrite lookup_delete_ne by done.
              split; intros [Hx Hp]; (split; [done|]); intros Hin; apply Hp.
              ** by apply elem_of_cons in Hin as [?|?].
              ** by apply list_elem_of_further.
        -- intros user. etrans; [apply Hsets|]. subst w1.
           change (smembers_of w user)
             with (smembers_of (set_kv (delete key) w) user).
           apply smembers_of_srem_subseteq.
        -- intros k d s Hin Hs Hexp.
           destruct (decide (k = key)) as [->|Hne].
           ++ rewrite Hkey in Hs. injection Hs as <- <-.
              intros Hmem. apply Hsets in Hmem. subst w1.
              rewrite smembers_of_srem in Hmem.
              rewrite decide_True in Hmem by done. set_solver.
           ++ apply Hpruned with k d; [|subst w1; cbn|by subst w1].
              ** by apply elem_of_cons in Hin as [?|?].
              ** by rewrite lookup_delete_ne.
      * (* not expired: the record is left alone *)
        destruct (IH w) as (w' & -> & Hnow & Hkv & Hsets & Hpruned).
        exists w'. split; [done|]. split; [done|]. split; [|split].
        -- rewrite Hkv. apply map_eq. intros i. apply option_eq. intros x.
           rewrite !map_lookup_filter_Some. cbn.
           split; intros [Hx Hp]; (split; [done|]); intros Hin.
           ++ apply elem_of_cons in Hin as [->|Hin]; [|by apply Hp].
              rewrite Hkey in Hx. by injection Hx as <-.
           ++ apply Hp. by apply list_elem_of_further.
        -- done.
        -- intros k d s Hin Hs Hexp.
           apply elem_of_cons in Hin as [->|Hin]; [|by eapply Hpruned].
           rewrite Hkey in Hs. injection Hs as <- <-. lia.
    + (* the key has gone meanwhile *)
      destruct (IH w) as (w' & -> & Hnow & Hkv & Hsets & Hpruned).
      exists w'. split; [done|]. split; [done|]. split; [|split].
      * rewrite Hkv. apply map_eq. intros i. apply option_eq. intros x.
        rewrite !map_lookup_filter_Some. cbn.
        split; intros [Hx Hp]; (split; [done|]); intros Hin.
        -- apply elem_of_cons in Hin as [->|Hin]; [|by apply Hp].
           by rewrite Hkey in Hx.
        -- apply Hp. by apply list_elem_of_further.
      * done.
      * intros k d s Hin Hs Hexp.
        apply elem_of_cons in Hin as [->|Hin]; [|by eapply Hpruned].
        by rewrite Hkey in Hs.
Qed.

Lemma cleanupExpiredSessions_spec w :
  exists w',
    cleanupExpiredSessions w = Ret tt w'
    /\ now w' = now w
    /\ kv w' = filter (fun p => now w <= expiresAt p.2.2) (kv w)
    /\ (forall user, smembers_of w' user ⊆ smembers_of w user)
    /\ (forall key deadline session,
           kv w !! key = Some (deadline, session) ->
           expiresAt session < now w ->
           sid session ∉ smembers_of w' (username session)).
Proof.
  unfold cleanupExpiredSessions, try_catch. run.
  destruct (cleanup_loop_spec (elements (dom (kv w))) w)
    as (w' & -> & Hnow & Hkv & Hsets & Hpruned).
  exists w'. split; [done|]. split; [done|]. split; [|split; [done|]].
  - rewrite Hkv. apply map_filter_ext. intros i x Hx. cbn. split.
    + intros Hp. apply Hp, elem_of_elements, elem_of_dom. by eexists.
    + by intros ? _.
  - intros key deadline session Hs. apply (Hpruned key deadline); [|done].
    apply elem_of_elements, elem_of_dom. by eexists.
Qed.

(** X4.  The sweep never throws; it removes exactly the stored records
    whose [expiresAt] is behind the clock, leaves every other record as it
    was, and takes the identifier of each removed session out of its
    owner's set without adding anything to any set. *)
Theorem cleanupExpiredSessions_sweeps w :
  exists w',
    cleanupExpiredSessions w = Ret tt w'
    /\ (forall key deadline session,
           kv w' !! key = Some (deadline, session) <->
           kv w !! key = Some (deadline, session) /\ now w <= expiresAt session)
    /\ (forall key deadline session,
           kv w !! key = Some (deadline, session) ->
           expiresAt session < now w ->
           kv w' !! key = None
           /\ sid session ∉ smembers_of w' (username session))
    /\ (forall user, smembers_of w' user ⊆ smembers_of w user).
Proof.
  destruct (cleanupExpiredSessions_spec w)
    as (w' & Hrun & _ & Hkv & Hsets & Hpruned).
  exists w'. split; [done|]. split; [|split; [|done]].
  - intros key deadline session. rewrite Hkv.
    by rewrite map_lookup_filter_Some.
  - intros key deadline session Hs Hexp.
    split; [|by apply (Hpruned key deadline)].
    rewrite Hkv. apply map_lookup_filter_None. right.
    intros x Hx. rewrite Hs in Hx. injection Hx as <-. cbn. lia.
Qed.

(** X5.  After a sweep no read hangs any more: [getSession] answers for
    every identifier, with the stored session if it is unexpired and with
    NotFound if the record was expired or absent. *)
Theorem sweep_then_getSession w :
  exists w',
    cleanupExpiredSessions w = Ret tt w'
    /\ forall fuel sessionId,
         getSession (S fuel) sessionId w'
         = match kv w !! sessionId with
           | Some (_, session) =>
               if expiresAt session <? now w
               then Throw (NotFoundError "Session") w'
               else Ret session w'
           | None => Throw (NotFoundError "Session") w'
           end.
Proof.
  destruct (cleanupExpiredSessions_spec w) as (w' & Hrun & Hnow & Hkv & _).
  exists w'. split; [done|]. intros fuel sessionId.
  destruct (kv w !! sessionId) as [[deadline session]|] eqn:Hs.
  - destruct (Z.ltb_spec (expiresAt session) (now w)) as [Hstale|Hlive].
    + apply getSession_absent. rewrite Hkv. apply map_lookup_filter_None.
      right. intros x Hx. rewrite Hs in Hx. injection Hx as <-. cbn. lia.
    + apply getSession_live with deadline; [|lia].
      rewrite Hkv. by apply map_lookup_filter_Some.
  - apply getSession_absent. rewrite Hkv. apply map_lookup_filter_None. by left.
Qed.

(** X6.  After a sweep the listing of a user's sessions answers, for
    every user: it returns exactly the unexpired sessions that the user's
    set names, and leaves the records as the sweep left them. *)
Theorem sweep_then_getUserSessions w user fuel :
  exists w' sessions w'',
    cleanupExpiredSessions w = Ret tt w'
    /\ getUserSessions (S fuel) user w' = Ret sessions w''
    /\ kv w'' = kv w'
    /\ (forall s, s ∈ sessions <->
                  exists sessionId deadline,
                    sessionId ∈ smembers_of w' user
                    /\ kv w !! sessionId = Some (deadline, s)
                    /\ now w <= expiresAt s).
Proof.
  destruct (cleanupExpiredSessions_spec w) as (w' & Hrun & Hnow & Hkv & _).
  destruct (getUserSessions_prunes_missing fuel user w')
    as (sessions & w'' & Hlist & Hkept & Hsessions & _).
  { intros sessionId deadline session _ Hs. rewrite Hkv in Hs.
    apply map_lookup_filter_Some in Hs as [_ Hlive]. cbn in Hlive. lia. }
  exists w', sessions, w''. split; [done|]. split; [done|]. split; [done|].
  intros s. rewrite Hsessions. setoid_rewrite Hkv.
  by setoid_rewrite map_lookup_filter_Some.
Qed.

(** * Further properties of the call gateway *)

Lemma call_each_stays_closed cfg endpoint timeout attempts w state :
  breaker_of w endpoint = Some state ->
  isOpen state = false ->
  Forall (fun a => is_rejected (reply a)) attempts ->
  failures state + Z.of_nat (length attempts) < maxFailures ->
  exists state',
    breaker_of (call_each cfg endpoint timeout attempts w) endpoint = Some state'
    /\ isOpen state' = false
    /\ failures state' = failures state + Z.of_nat (length attempts).
Proof.
  revert w state.
  induction attempts as [|a rest IH]; intros w state Hstate Hclosed Hrej Hlen.
  - exists state. cbn. split; [done|]. split; [done|]. lia.
  - apply Forall_cons in Hrej as [Ha Hrest].
    unfold is_rejected in Ha. destruct (outcome (reply a)) as [|e] eqn:Hout; [done|].
    cbn [call_each]. cbv zeta.
    erewrite callWebhook_closed_rejected; [|by rewrite breaker_of_advance|done..].
    cbn [world_after]. set (w1 := advance (Z.of_N (elapsed (reply a))) _).
    set (w2 := set_circuitBreakers _ w1).
    cbn [length] in Hlen.
    destruct (IH w2 (failed_once state (now w1))) as (state' & Hb & Hc & Hf).
    + unfold breaker_of. subst w2. cbn. by rewrite lookup_insert_eq.
    + unfold failed_once.
      by destruct (Z.leb_spec maxFailures (failures state + 1)); [lia|].
    + done.
    + unfold failed_once.
      destruct (Z.leb_spec maxFailures (failures state + 1)); cbn; lia.
    + exists state'. split; [done|]. split; [done|]. rewrite Hf.
      unfold failed_once.
      destruct (Z.leb_spec maxFailures (failures state + 1)); cbn; lia.
Qed.

(** X7.  Failures short of the threshold are counted one by one and leave
    the breaker closed; the first call the engine answers after them sets
    the counter back to zero, so the count towards the threshold starts
    again from nothing. *)
Theorem success_resets_failures cfg endpoint timeout attempts net data w state :
  breaker_of w endpoint = Some state ->
  isOpen state = false ->
  failures state = 0 ->
  Forall (fun a => is_rejected (reply a)) attempts ->
  Z.of_nat (length attempts) < maxFailures ->
  outcome net = Resolved data ->
  exists counted w' reset,
    breaker_of (call_each cfg endpoint timeout attempts w) endpoint = Some counted
    /\ isOpen counted = false
    /\ failures counted = Z.of_nat (length attempts)
    /\ callWebhook cfg endpoint timeout net
         (call_each cfg endpoint timeout attempts w) = Ret data w'
    /\ breaker_of w' endpoint = Some reset
    /\ isOpen reset = false
    /\ failures reset = 0.
Proof.
  intros Hstate Hclosed Hzero Hrej Hlen Hout.
  destruct (call_each_stays_closed cfg endpoint timeout attempts w state)
    as (counted & Hcounted & Hstill & Hfailures); [done..|lia|].
  destruct (callWebhook_closed_resolved cfg endpoint timeout net
              (call_each cfg endpoint timeout attempts w) counted data)
    as (w' & Hcall & _ & _ & _ & reset & Hreset & Hrc & Hrf); [done..|].
  exists counted, w', reset.
  repeat (split; [done || lia|]). lia.
Qed.

Lemma success_resets_failures_witness :
  exists counted w' reset,
    breaker_of (call_each cfg1 CHECKOUT None three_refused empty_world) CHECKOUT
    = Some counted
    /\ failures counted = 3
    /\ callWebhook cfg1 CHECKOUT None cart_success
         (call_each cfg1 CHECKOUT None three_refused empty_world)
       = Ret success_with_cookie w'
    /\ breaker_of w' CHECKOUT = Some reset
    /\ failures reset = 0.
Proof.
  assert (breaker_of empty_world CHECKOUT = Some closed_breaker) as Hstate
    by (vm_compute; reflexivity).
  assert (Forall (fun a => is_rejected (reply a)) three_refused) as Hrej
    by (repeat constructor).
  destruct (success_resets_failures cfg1 CHECKOUT None three_refused cart_success
              success_with_cookie empty_world closed_breaker
              Hstate eq_refl eq_refl Hrej eq_refl eq_refl)
    as (counted & w' & reset & Hcounted & _ & Hthree & Hcall & Hreset & _ & Hzero).
  generalize dependent (call_each cfg1 CHECKOUT None three_refused empty_world).
  intros tripped Hcounted Hcall.
  exists counted, w', reset.
  split; [exact Hcounted|]. split; [exact Hthree|]. split; [exact Hcall|].
  split; [exact Hreset | exact Hzero].
Defined.

Lemma endpoint_value_inj e1 e2 : endpoint_value e1 = endpoint_value e2 -> e1 = e2.
Proof. by destruct e1, e2. Qed.

(** X8.  The breakers are independent: whatever a call to one endpoint
    does (fail fast, succeed, fail, trip or reset its breaker), the breaker
    of every other endpoint is left exactly as it was. *)
Theorem callWebhook_isolated cfg endpoint other timeout net w w' :
  other <> endpoint ->
  world_of (callWebhook cfg endpoint timeout net w) = Some w' ->
  breaker_of w' other = breaker_of w other.
Proof.
  intros Hne.
  assert (endpoint_value endpoint <> endpoint_value other) as Hvalue.
  { intros Heq. by apply endpoint_value_inj in Heq. }
  unfold callWebhook, bind, try_catch, isCircuitOpen, axios_post,
    recordSuccess, recordFailure, throw, ret, breaker_of.
  repeat (case_match; simplify_eq/=); intros [= <-]; cbn;
    by rewrite ?lookup_insert_ne by done.
Qed.

Lemma callWebhook_isolated_witness :
  exists w',
    world_of (callWebhook cfg1 ADD_ITEMS None connection_refused empty_world)
    = Some w'
    /\ breaker_of w' CHECKOUT = breaker_of empty_world CHECKOUT.
Proof.
  destruct (callWebhook_world cfg1 ADD_ITEMS None connection_refused empty_world)
    as (w' & Hrun & _).
  exists w'. split; [exact Hrun|].
  apply (callWebhook_isolated cfg1 ADD_ITEMS CHECKOUT None connection_refused
           empty_world w'); [discriminate | exact Hrun].
Defined.

(** X9.  What a gateway call can end with.  It answers a body only when the
    network answered that body.  What it throws is never a raw [AxiosError]:
    either the fail-fast [CircuitBreakerError], with nothing posted and the
    world untouched, or, after the request was posted, an
    [ExternalServiceError] for every [AxiosError] of the network and the
    network's error itself for anything else.  It never runs out of fuel. *)
Theorem callWebhook_outcomes cfg endpoint timeout net w :
  match callWebhook cfg endpoint timeout net w with
  | Ret data w' =>
      outcome net = Resolved data
      /\ posts w' = posts w ++ [(endpoint_value endpoint,
                                 timeout_or_default cfg timeout)]
  | Throw e w' =>
      (forall a, e <> AxiosErr a)
      /\ ((e = CircuitBreakerError ("n8n " +:+ endpoint_value endpoint)
           /\ w' = w)
          \/ (exists e0,
                outcome net = Rejected e0
                /\ posts w' = posts w ++ [(endpoint_value endpoint,
                                           timeout_or_default cfg timeout)]
                /\ match e0 with
                   | AxiosErr a => is_ExternalServiceError e = true
                   | _ => e = e0
                   end))
  | OutOfFuel => False
  end.
Proof.
  unfold callWebhook, bind, try_catch, isCircuitOpen, axios_post,
    recordSuccess, recordFailure, throw, ret, translate_error.
  repeat (case_match; simplify_eq/=);
    try done;
    try (split; [done|]);
    try (by left);
    try (right; eexists; split; [done|]; split; done).
Qed.

Lemma sent_closed cfg endpoint timeout net w :
  breakers_closed w ->
  sent w (callWebhook cfg endpoint timeout net w)
  = [(endpoint_value endpoint, timeout_or_default cfg timeout)].
Proof.
  intros Hclosed. destruct (Hclosed endpoint) as (state & Hstate & Hisclosed).
  destruct (callWebhook_closed_attempt cfg endpoint timeout net w state)
    as (w' & Hposts & Hcall); [done..|].
  unfold sent. rewrite Hcall.
  destruct (outcome net); cbn [world_after]; rewrite Hposts;
    by rewrite drop_app_length.
Qed.

(** X10.  The time budget of each class of call, with all breakers closed:
    every method posts exactly one request, to its own endpoint.  A manual
    login is given the manual-login budget and a status check the
    login-status budget, each replaced by the default budget when it is
    configured as 0; an automatic login and the cart, address, checkout
    and order calls are given the default budget. *)
Theorem request_budgets cfg sessionId user password orderNumber net w :
  breakers_closed w ->
  let or_default t := if t =? 0 then timeout_default cfg else t in
  sent w (login cfg sessionId user password true net w)
  = [("ubereats-login", or_default (timeout_manualLogin cfg))]
  /\ sent w (login cfg sessionId user password false net w)
     = [("ubereats-login", timeout_default cfg)]
  /\ sent w (checkLoginStatus cfg sessionId user net w)
     = [("ubereats-login-status", or_default (timeout_loginStatus cfg))]
  /\ sent w (addItems cfg sessionId net w)
     = [("ubereats-add-items", timeout_default cfg)]
  /\ sent w (setDeliveryAddress cfg sessionId net w)
     = [("ubereats-set-address", timeout_default cfg)]
  /\ sent w (checkout cfg sessionId net w)
     = [("ubereats-checkout", timeout_default cfg)]
  /\ sent w (getOrderStatus cfg sessionId orderNumber net w)
     = [("ubereats-order-status", timeout_default cfg)]
  /\ sent w (cancelOrder cfg sessionId orderNumber net w)
     = [("ubereats-cancel-order", timeout_default cfg)].
Proof.
  intros Hclosed or_default.
  rewrite !login_is_callWebhook.
  unfold checkLoginStatus, addItems, setDeliveryAddress, checkout,
    getOrderStatus, cancelOrder.
  rewrite !sent_closed by done. cbn [timeout_or_default endpoint_value].
  repeat split. by destruct (timeout_default cfg =? 0).
Qed.

Lemma empty_world_breakers_closed : breakers_closed empty_world.
Proof.
  intros endpoint. exists closed_breaker. split; [|done].
  apply initial_breakers_all.
Qed.

Lemma request_budgets_witness :
  sent empty_world
    (login cfg_no_manual_budget "s1" alice "secret" true cart_success empty_world)
  = [("ubereats-login", 60000)]
  /\ sent empty_world
       (checkLoginStatus cfg_no_manual_budget "s1" alice cart_success empty_world)
     = [("ubereats-login-status", 30000)].
Proof.
  destruct (request_budgets cfg_no_manual_budget "s1" alice "secret" "o1"
              cart_success empty_world empty_world_breakers_closed)
    as (Hmanual & _ & Hstatus & _).
  split; [exact Hmanual | exact Hstatus].
Defined.

(** * Life of a session *)



(** * Further properties of the tool handlers *)

(** X12.  Logging out a session whose record is live or absent always
    answers success.  Exactly that record is taken out of the store, its
    identifier is taken out of its owner's set and out of no other set, no
    request is posted to the engine, logging out an unknown session leaves
    the world as it is, and a second logout succeeds and changes nothing. *)
Theorem logoutHandler_removes fuel sessionId w :
  (forall deadline session,
      kv w !! sessionId = Some (deadline, session) -> now w <= expiresAt session) ->
  exists w',
    logoutHandler (S fuel) sessionId w
    = Ret (success_result "Successfully logged out") w'
    /\ kv w' = delete sessionId (kv w)
    /\ (forall deadline session owner,
           kv w !! sessionId = Some (deadline, session) ->
           smembers_of w' owner
           = if decide (owner = username session)
             then smembers_of w owner ∖ {[sessionId]}
             else smembers_of w owner)
    /\ (kv w !! sessionId = None -> w' = w)
    /\ posts w' = posts w
    /\ logoutHandler (S fuel) sessionId w'
       = Ret (success_result "Successfully logged out") w'.
Proof.
  intros Hlive. unfold logoutHandler, try_catch, bind.
  destruct (kv w !! sessionId) as [[deadline session]|] eqn:Hkv.
  - exists (deleted sessionId w (username session)).
    erewrite deleteSession_live by eauto.
    rewrite deleteSession_absent by apply deleted_lookup.
    split; [done|]. split; [done|]. split.
    { intros ? ? owner [= <- <-]. unfold smembers_of at 1, deleted. cbn.
      destruct (decide (owner = username session)) as [->|Hne].
      - by rewrite lookup_insert_eq.
      - by rewrite lookup_insert_ne. }
    done.
  - exists w. rewrite deleteSession_absent by done.
    split; [done|]. split; [by rewrite delete_id|].
    done.
Qed.

Lemma logoutHandler_removes_witness :
  exists w',
    logoutHandler 1 "s1" (alice_world 0 1000)
    = Ret (success_result "Successfully logged out") w'
    /\ kv w' !! "s1" = None
    /\ "s1" ∉ smembers_of w' alice.
Proof.
  destruct (logoutHandler_removes 0 "s1" (alice_world 0 1000))
    as (w' & Hout & Hkv & Hsets & _).
  { intros deadline session Hsome. vm_compute in Hsome.
    injection Hsome as <- <-. vm_compute. discriminate. }
  exists w'. split; [exact Hout|]. split.
  - rewrite Hkv. apply lookup_delete_eq.
  - rewrite (Hsets 3600000 alice_session alice) by (vm_compute; reflexivity).
    rewrite decide_True by reflexivity. set_solver.
Defined.

Lemma callWebhook_resolved_clock cfg endpoint timeout net w state data :
  breaker_of w endpoint = Some state ->
  isOpen state = false ->
  outcome net = Resolved data ->
  exists w',
    callWebhook cfg endpoint timeout net w = Ret data w'
    /\ now w' = now w + Z.of_N (elapsed net)
    /\ kv w' = kv (advance (Z.of_N (elapsed net)) w)
    /\ sets w' = sets w
    /\ posts w' = posts w ++ [(endpoint_value endpoint, timeout_or_default cfg timeout)]
    /\ forall other, other <> endpoint -> breaker_of w' other = breaker_of w other.
Proof.
  intros Hstate Hclosed Hres. unfold breaker_of in *.
  unfold callWebhook, bind at 1, isCircuitOpen.
  rewrite Hstate, Hclosed. cbn [negb].
  unfold try_catch, bind at 1, axios_post. rewrite Hres.
  unfold bind, recordSuccess. cbn [circuitBreakers advance add_post].
  rewrite Hstate.
  destruct (0 <? failures state); eexists; (do 5 (split; [done|]));
    intros other Hother; cbn; [|done].
  rewrite lookup_insert_ne; [done|].
  intros Heq. by apply endpoint_value_inj in Heq.
Qed.

Lemma advance_lookup_live dt w key deadline session :
  kv w !! key = Some (deadline, session) ->
  now w + dt <= deadline ->
  kv (advance dt w) !! key = Some (deadline, session).
Proof.
  intros Hsome Hlive. unfold advance. cbn.
  by apply map_lookup_filter_Some.
Qed.

Lemma login_recorded_apply data t session :
  login_recorded data t session (apply_updates session (login_updates data t) t).
Proof.
  unfold login_recorded, apply_updates, login_updates. cbn.
  repeat (split; [done || apply (merge_field_merged _ (Some _))|]). done.
Qed.

(** The run of [completeLoginHandler] when the status call comes back
    with a confirmation and the record is still live. *)
Lemma completeLoginHandler_success_run cfg fuel sessionId net data w w1 deadline session :
  kv w !! sessionId = Some (deadline, session) ->
  sid session = sessionId ->
  status session = MANUAL_LOGIN_PENDING
  \/ (status session = ACTIVE /\ loginCompletedAt session = None) ->
  now w <= expiresAt session ->
  callWebhook cfg LOGIN_STATUS (Some (timeout_loginStatus cfg)) net w = Ret data w1 ->
  r_status data = success ->
  kv w1 !! sessionId = Some (deadline, session) ->
  now w1 <= expiresAt session ->
  0 < remaining_ttl session (now w1) ->
  completeLoginHandler cfg (S fuel) sessionId net w
  = Ret (logged_in cfg "Login completed successfully" session)
      (set_kv (insert sessionId
                 (now w1 + remaining_ttl session (now w1) * 1000,
                  apply_updates session (login_updates data (now w1)) (now w1)))
         w1).
Proof.
  intros Hsome Hsid Hstatus Hlive Hcall Hok Hsome1 Hlive1 Httl.
  unfold completeLoginHandler, try_catch.
  erewrite getSession_active_then by done.
  replace (bool_decide (status session = ACTIVE)
           && bool_decide (is_Some (loginCompletedAt session))) with false; last first.
  { destruct Hstatus as [->|[-> ->]]; [done|].
    symmetry. apply andb_false_intro2, bool_decide_eq_false_2.
    by intros [? ?]. }
  replace (bool_decide (status session ≠ MANUAL_LOGIN_PENDING)
           && bool_decide (status session ≠ ACTIVE)) with false; last first.
  { by destruct Hstatus as [->|[-> _]]. }
  unfold checkLoginStatus, bind at 1. rewrite Hcall, Hok.
  unfold bind at 1, date_now, gets. unfold bind at 1.
  rewrite Hsid.
  erewrite updateSession_live by done. cbv zeta.
  apply Z.ltb_lt in Httl as Hpos. rewrite Hpos.
  unfold logged_in, ret. by rewrite Hsid.
Qed.



(** X14.  Completing a login that needs no completing.  On a live record
    that is not awaiting a manual login, the handler answers at once,
    without posting anything to the engine and without touching the world:
    success with a fresh token when the session is active with a completed
    login, the [INVALID_STATE] error when its status is neither pending
    nor active. *)
Theorem completeLoginHandler_short_circuits cfg fuel sessionId net w deadline session :
  kv w !! sessionId = Some (deadline, session) ->
  now w <= expiresAt session ->
  status session <> MANUAL_LOGIN_PENDING ->
  (status session = ACTIVE -> is_Some (loginCompletedAt session)) ->
  completeLoginHandler cfg (S fuel) sessionId net w
  = Ret (if bool_decide (status session = ACTIVE)
         then logged_in cfg "Session already logged in" session
         else error_result "Session is not in a valid state for login completion"
                "INVALID_STATE") w.
Proof.
  intros Hsome Hlive Hpending Hdone.
  unfold completeLoginHandler, try_catch.
  erewrite getSession_active_then by done.
  destruct (decide (status session = ACTIVE)) as [Hactive|Hother].
  - rewrite (bool_decide_eq_true_2 _ Hactive).
    by rewrite (bool_decide_eq_true_2 _ (Hdone Hactive)).
  - rewrite (bool_decide_eq_false_2 _ Hother). cbn [andb].
    rewrite (bool_decide_eq_true_2 (status session ≠ MANUAL_LOGIN_PENDING)) by done.
    by rewrite (bool_decide_eq_true_2 (status session ≠ ACTIVE)) by done.
Qed.

Lemma completeLoginHandler_short_circuits_witness :
  completeLoginHandler cfg1 1 "s1" connection_refused logged_in_world
  = Ret (logged_in cfg1 "Session already logged in" logged_in_session)
      logged_in_world.
Proof.
  apply (completeLoginHandler_short_circuits cfg1 0 "s1" connection_refused
           logged_in_world 3600000 logged_in_session).
  - vm_compute; reflexivity.
  - vm_compute; discriminate.
  - discriminate.
  - intros _. by eexists.
Defined.

(** X15.  A login that the engine reports as not yet completed: the
    handler answers [login_incomplete] with the session's identifier and
    no token, the stored record is exactly the one before the call, and
    the breaker of the status endpoint is still closed, so the completion
    can be asked for again. *)
Theorem completeLoginHandler_incomplete
  cfg fuel sessionId net data w deadline session state :
  kv w !! sessionId = Some (deadline, session) ->
  sid session = sessionId ->
  status session = MANUAL_LOGIN_PENDING
  \/ (status session = ACTIVE /\ loginCompletedAt session = None) ->
  breaker_of w LOGIN_STATUS = Some state ->
  isOpen state = false ->
  outcome net = Resolved data ->
  r_status data = login_incomplete ->
  now w + Z.of_N (elapsed net) <= deadline ->
  deadline <= expiresAt session ->
  exists result w' state',
    completeLoginHandler cfg (S fuel) sessionId net w = Ret result w'
    /\ t_status result = login_incomplete
    /\ t_sessionId result = Some sessionId
    /\ t_token result = None
    /\ kv w' !! sessionId = Some (deadline, session)
    /\ sets w' = sets w
    /\ breaker_of w' LOGIN_STATUS = Some state'
    /\ isOpen state' = false.
Proof.
  intros Hsome Hsid Hstatus Hstate Hclosed Hout Hincomplete Hdeadline Hexpires.
  destruct (callWebhook_closed_resolved cfg LOGIN_STATUS
              (Some (timeout_loginStatus cfg)) net w state data)
    as (w1 & Hcall & _ & Hkv & Hsets & state' & Hstate' & Hclosed' & _); [done..|].
  unfold completeLoginHandler, try_catch.
  erewrite getSession_active_then by (done || lia).
  replace (bool_decide (status session = ACTIVE)
           && bool_decide (is_Some (loginCompletedAt session))) with false; last first.
  { destruct Hstatus as [->|[-> ->]]; [done|].
    symmetry. apply andb_false_intro2, bool_decide_eq_false_2.
    by intros [? ?]. }
  replace (bool_decide (status session ≠ MANUAL_LOGIN_PENDING)
           && bool_decide (status session ≠ ACTIVE)) with false; last first.
  { by destruct Hstatus as [->|[-> _]]. }
  unfold checkLoginStatus, bind at 1. rewrite Hcall, Hincomplete.
  eexists _, w1, state'. split; [done|]. cbn.
  split; [done|]. split; [by rewrite Hsid|]. split; [done|].
  split; [|done].
  rewrite Hkv. by apply advance_lookup_live.
Qed.

Lemma completeLoginHandler_incomplete_witness :
  exists result w',
    completeLoginHandler cfg1 1 "s2" still_pending pending_world = Ret result w'
    /\ t_status result = login_incomplete
    /\ kv w' !! "s2" = Some (3600000, pending_session).
Proof.
  assert (kv pending_world !! "s2" = Some (3600000, pending_session))
    as Hsome by (vm_compute; reflexivity).
  assert (breaker_of pending_world LOGIN_STATUS = Some closed_breaker) as Hstate
    by (vm_compute; reflexivity).
  destruct (completeLoginHandler_incomplete cfg1 0 "s2" still_pending
              _ pending_world 3600000 pending_session closed_breaker
              Hsome eq_refl (or_introl eq_refl) Hstate eq_refl eq_refl eq_refl)
    as (result & w' & state' & Hrun & Hstatus & _ & _ & Hkept & _);
    [vm_compute; discriminate | vm_compute; discriminate |].
  exists result, w'.
  split; [exact Hrun|]. split; [exact Hstatus | exact Hkept].
Defined.

(** X16.  The cart, address and checkout handlers serve active sessions
    only.  For an unknown session they answer the [NOT_FOUND] error, for a
    live session that is not active the [AUTHENTICATION_ERROR]; in both
    cases nothing is posted to the engine and the world is left as it
    was. *)
Theorem cart_handlers_require_active cfg fuel sessionId net w :
  (forall deadline session,
      kv w !! sessionId = Some (deadline, session) ->
      now w <= expiresAt session /\ status session <> ACTIVE) ->
  let refusal :=
    match kv w !! sessionId with
    | Some _ =>
        error_result "Session is not active. Please complete login first."
          "AUTHENTICATION_ERROR"
    | None => error_result "Session not found" "NOT_FOUND"
    end in
  addItemsHandler cfg (S fuel) sessionId net w = Ret refusal w
  /\ setAddressHandler cfg (S fuel) sessionId net w = Ret refusal w
  /\ checkoutHandler cfg (S fuel) sessionId net w = Ret refusal w.
Proof.
  intros Hinactive.
  unfold addItemsHandler, setAddressHandler, checkoutHandler, try_catch.
  destruct (kv w !! sessionId) as [[deadline session]|] eqn:Hkv.
  - destruct (Hinactive deadline session eq_refl) as [Hlive Hstatus].
    rewrite !(getSession_active_then fuel sessionId w deadline session) by done.
    by rewrite (bool_decide_eq_true_2 _ Hstatus).
  - unfold bind. by rewrite getSession_absent.
Qed.

Lemma cart_handlers_require_active_witness :
  addItemsHandler cfg1 1 "s2" cart_success pending_world
  = Ret (error_result "Session is not active. Please complete login first."
           "AUTHENTICATION_ERROR") pending_world
  /\ checkoutHandler cfg1 1 "s7" cart_success pending_world
     = Ret (error_result "Session not found" "NOT_FOUND") pending_world.
Proof.
  split.
  - refine (proj1 (cart_handlers_require_active cfg1 0 "s2" cart_success
                     pending_world _)).
    intros deadline session Hsome. vm_compute in Hsome.
    injection Hsome as <- <-. split; [vm_compute; discriminate | discriminate].
  - refine (proj2 (proj2 (cart_handlers_require_active cfg1 0 "s7" cart_success
                            pending_world _))).
    intros deadline session Hsome. vm_compute in Hsome. discriminate.
Defined.

Lemma created_lookup_after cfg options uuid session w dt :
  now w + dt <= expiresAt session ->
  kv (advance dt (created cfg options uuid session w)) !! uuid
  = Some (expiresAt session, session).
Proof.
  intros Hlive. apply advance_lookup_live; [|done].
  unfold created. cbn. by rewrite lookup_insert_eq.
Qed.

(** X17.  A login the engine accepts.  Below the session ceiling, with the
    breaker of the login endpoint closed and a lifetime that outlasts the
    call by at least a second, the handler answers success with the new
    session's identifier, a token for the user and the session's expiry;
    the stored record is active, carries the instant of completion and the
    cookies, tokens and storage the engine returned, and is indexed under
    the user. *)
Theorem loginHandler_logs_in cfg fuel input uuid net data w state :
  count w < maxSessions cfg ->
  breaker_of w LOGIN = Some state ->
  isOpen state = false ->
  outcome net = Resolved data ->
  r_status data = success ->
  Z.of_N (elapsed net) + 1000 <= lifetimeMinutes cfg * 60000 ->
  let session := new_session cfg (login_options input) uuid (now w) in
  exists w' deadline' stored,
    loginHandler cfg (S fuel) input uuid net w
    = Ret (logged_in cfg "Successfully logged in" session) w'
    /\ kv w' !! uuid = Some (deadline', stored)
    /\ login_recorded data (now w + Z.of_N (elapsed net)) session stored
    /\ deadline' <= expiresAt session
    /\ uuid ∈ smembers_of w' (li_username input).
Proof.
  intros Hroom Hstate Hclosed Hout Hok Hlife session.
  assert (lifetime_of cfg (login_options input) = lifetimeMinutes cfg) as Hlifetime
    by done.
  assert (expiresAt session = now w + lifetimeMinutes cfg * 60000) as Hexpires
    by done.
  set (w0 := created cfg (login_options input) uuid session w).
  destruct (callWebhook_resolved_clock cfg LOGIN
              (Some (if li_manualMode input
                     then timeout_manualLogin cfg else timeout_default cfg))
              net w0 state data)
    as (w1 & Hcall & Hnow & Hkv & Hsets & _); [done..|].
  assert (kv w1 !! uuid = Some (expiresAt session, session)) as Hsome1.
  { rewrite Hkv. apply created_lookup_after. lia. }
  unfold loginHandler, try_catch. unfold bind at 1.
  rewrite createSession_ok by (done || lia). cbv beta iota zeta.
  fold session. fold w0.
  unfold login_attempt, try_catch. unfold bind at 1.
  rewrite login_is_callWebhook, Hcall, Hok.
  unfold bind at 1, date_now, gets. unfold bind at 1.
  change (sid session) with uuid.
  erewrite updateSession_live by (done || (rewrite Hnow; cbn; lia)).
  cbv zeta. rewrite Hnow. change (now w0) with (now w).
  assert (0 < remaining_ttl session (now w + Z.of_N (elapsed net))) as Httl.
  { unfold remaining_ttl. rewrite Hexpires.
    apply Z.div_str_pos. lia. }
  apply Z.ltb_lt in Httl as Hpos. rewrite Hpos.
  eexists _, _, _. split; [done|].
  split; [cbn; by rewrite lookup_insert_eq|].
  split; [apply login_recorded_apply|].
  split; [apply remaining_ttl_deadline|].
  unfold smembers_of. cbn [sets set_kv]. rewrite Hsets.
  unfold w0, created. cbn. rewrite lookup_insert_eq. cbn. set_solver.
Qed.

Lemma loginHandler_logs_in_witness :
  exists w' deadline' stored,
    loginHandler cfg1 1 alice_login "s9" cart_success empty_world
    = Ret (logged_in cfg1 "Successfully logged in"
             (new_session cfg1 (login_options alice_login) "s9" 0)) w'
    /\ kv w' !! "s9" = Some (deadline', stored)
    /\ status stored = ACTIVE
    /\ cookies stored !! "a" = Some "1".
Proof.
  assert (count empty_world < maxSessions cfg1) as Hroom by (vm_compute; reflexivity).
  assert (breaker_of empty_world LOGIN = Some closed_breaker) as Hstate
    by (vm_compute; reflexivity).
  destruct (loginHandler_logs_in cfg1 0 alice_login "s9" cart_success
              success_with_cookie empty_world closed_breaker
              Hroom Hstate eq_refl eq_refl eq_refl)
    as (w' & deadline' & stored & Hrun & Hstored & Hrec & _);
    [vm_compute; discriminate |].
  exists w', deadline', stored. split; [exact Hrun|]. split; [exact Hstored|].
  destruct Hrec as (Hactive & _ & _ & Hcookies & _).
  split; [exact Hactive|]. exact (Hcookies "a").
Defined.

(** X18.  The manual login flow, end to end.  A login in manual mode that
    the engine answers with [manual_login_started] returns that status
    with the new session's identifier and no token, and leaves the session
    stored as pending.  When the completion is asked for after [pause]
    milliseconds and the engine confirms the login, the session lifetime
    outlasting both calls and the pause by at least a second, the handler
    answers success and the stored session has become active with the
    carried state of the confirmation. *)
Theorem manual_login_flow cfg fuel input uuid net1 started (pause : N) net2 data w :
  li_manualMode input = true ->
  count w < maxSessions cfg ->
  breakers_closed w ->
  outcome net1 = Resolved started ->
  r_status started = manual_login_started ->
  outcome net2 = Resolved data ->
  r_status data = success ->
  Z.of_N (elapsed net1) + Z.of_N pause + Z.of_N (elapsed net2) + 1000
  <= lifetimeMinutes cfg * 60000 ->
  let session := new_session cfg (login_options input) uuid (now w) in
  exists result w1 w2 deadline stored,
    loginHandler cfg (S fuel) input uuid net1 w = Ret result w1
    /\ t_status result = manual_login_started
    /\ t_sessionId result = Some uuid
    /\ t_token result = None
    /\ kv w1 !! uuid = Some (expiresAt session, session)
    /\ status session = MANUAL_LOGIN_PENDING
    /\ completeLoginHandler cfg (S fuel) uuid net2 (advance (Z.of_N pause) w1)
       = Ret (logged_in cfg "Login completed successfully" session) w2
    /\ kv w2 !! uuid = Some (deadline, stored)
    /\ login_recorded data
         (now w + Z.of_N (elapsed net1) + Z.of_N pause + Z.of_N (elapsed net2))
         session stored.
Proof.
  intros Hmanual Hroom Hbreakers Hout1 Hstarted Hout2 Hok Hlife session.
  assert (lifetime_of cfg (login_options input) = lifetimeMinutes cfg) as Hlifetime
    by done.
  assert (expiresAt session = now w + lifetimeMinutes cfg * 60000) as Hexpires
    by done.
  assert (status session = MANUAL_LOGIN_PENDING) as Hpending
    by (unfold session; cbn; by rewrite Hmanual).
  set (w0 := created cfg (login_options input) uuid session w).
  destruct (Hbreakers LOGIN) as (state & Hstate & Hclosed).
  destruct (Hbreakers LOGIN_STATUS) as (state2 & Hstate2 & Hclosed2).
  destruct (callWebhook_resolved_clock cfg LOGIN
              (Some (if li_manualMode input
                     then timeout_manualLogin cfg else timeout_default cfg))
              net1 w0 state started)
    as (w1 & Hcall & Hnow & Hkv & Hsets & _ & Hothers); [done..|].
  assert (kv w1 !! uuid = Some (expiresAt session, session)) as Hsome1.
  { rewrite Hkv. apply created_lookup_after. lia. }
  assert (now w1 = now w + Z.of_N (elapsed net1)) as Hnow1 by done.
  destruct (callWebhook_resolved_clock cfg LOGIN_STATUS
              (Some (timeout_loginStatus cfg)) net2
              (advance (Z.of_N pause) w1) state2 data)
    as (w2 & Hcall2 & Hnow2 & Hkv2 & _); [|done..|].
  { rewrite breaker_of_advance, Hothers by done. exact Hstate2. }
  cbn [now advance] in Hnow2. rewrite Hnow1 in Hnow2.
  assert (kv (advance (Z.of_N pause) w1) !! uuid
          = Some (expiresAt session, session)) as Hpaused.
  { apply advance_lookup_live; [done|]. lia. }
  assert (kv w2 !! uuid = Some (expiresAt session, session)) as Hsome2.
  { rewrite Hkv2. apply advance_lookup_live; [done|]. cbn [now advance]. lia. }
  assert (0 < remaining_ttl session (now w2)) as Httl.
  { unfold remaining_ttl. rewrite Hexpires, Hnow2. apply Z.div_str_pos. lia. }
  eexists _, w1, _, _, _.
  split.
  { unfold loginHandler, try_catch. unfold bind at 1.
    rewrite createSession_ok by (done || lia). cbv beta iota zeta.
    fold session. fold w0.
    unfold login_attempt, try_catch. unfold bind at 1.
    by rewrite login_is_callWebhook, Hcall, Hstarted. }
  do 5 (split; [done|]). split.
  { eapply completeLoginHandler_success_run; try done.
    - by left.
    - cbn [now advance]. lia.
    - lia. }
  split; [cbn; by rewrite lookup_insert_eq|].
  rewrite <- Hnow2. apply login_recorded_apply.
Qed.

Lemma manual_login_flow_witness :
  exists result w1 w2 deadline stored,
    loginHandler cfg1 1 alice_manual_login "s9" browser_opened empty_world
    = Ret result w1
    /\ t_status result = manual_login_started
    /\ completeLoginHandler cfg1 1 "s9" cart_success (advance 90000 w1)
       = Ret (logged_in cfg1 "Login completed successfully"
                (new_session cfg1 (login_options alice_manual_login) "s9" 0)) w2
    /\ kv w2 !! "s9" = Some (deadline, stored)
    /\ status stored = ACTIVE.
Proof.
  assert (count empty_world < maxSessions cfg1) as Hroom by (vm_compute; reflexivity).
  destruct (manual_login_flow cfg1 0 alice_manual_login "s9" browser_opened
              manual_login_started_response 90000 cart_success success_with_cookie
              empty_world eq_refl Hroom empty_world_breakers_closed
              eq_refl eq_refl eq_refl eq_refl)
    as (result & w1 & w2 & deadline & stored
        & Hlogin & Hstarted & _ & _ & _ & _ & Hcomplete & Hstored & Hrec);
    [vm_compute; discriminate |].
  exists result, w1, w2, deadline, stored.
  split; [exact Hlogin|]. split; [exact Hstarted|]. split; [exact Hcomplete|].
  split; [exact Hstored|]. exact (proj1 Hrec).
Defined.

(** * Writing and reading back *)

(** X19.  What [updateSession] returns is what the store then holds: on a
    live record with at least a second to live, a [getSession] that
    follows the update returns the very session the update returned; no
    other record and no owner set is touched. *)
Theorem updateSession_then_getSession fuel fuel' sessionId updates w deadline session :
  kv w !! sessionId = Some (deadline, session) ->
  now w <= expiresAt session ->
  0 < remaining_ttl session (now w) ->
  exists session' w',
    updateSession (S fuel) sessionId updates w = Ret session' w'
    /\ getSession (S fuel') sessionId w' = Ret session' w'
    /\ (forall other, other <> sessionId -> kv w' !! other = kv w !! other)
    /\ sets w' = sets w.
Proof.
  intros Hsome Hlive Httl.
  erewrite updateSession_live by done. cbv zeta.
  apply Z.ltb_lt in Httl as Hpos. rewrite Hpos.
  eexists _, _. split; [done|]. split; [|split; [|done]].
  - eapply getSession_live; [cbn; by rewrite lookup_insert_eq|]. done.
  - intros other Hother. cbn. by rewrite lookup_insert_ne.
Qed.

Lemma updateSession_then_getSession_witness :
  exists session' w',
    updateSession 1 "s1" cookie_update (alice_world 0 1000) = Ret session' w'
    /\ getSession 1 "s1" w' = Ret session' w'.
Proof.
  destruct (updateSession_then_getSession 0 0 "s1" cookie_update (alice_world 0 1000)
              3600000 alice_session)
    as (session' & w' & Hupdate & Hget & _);
    [vm_compute; reflexivity | vm_compute; discriminate | vm_compute; reflexivity |].
  exists session', w'. split; [exact Hupdate | exact Hget].
Defined.

(** X20.  Two updates in a row, on a live record with at least a second to
    live: each cookie of the second update takes its value, every other
    cookie of the first update takes the first update's value, every
    remaining cookie keeps the stored value; the status is the last one
    supplied; the expiry is the stored one throughout. *)
Theorem updateSession_twice fuel sessionId first second cookies1 cookies2 w deadline session :
  kv w !! sessionId = Some (deadline, session) ->
  now w <= expiresAt session ->
  0 < remaining_ttl session (now w) ->
  u_cookies first = Some cookies1 ->
  u_cookies second = Some cookies2 ->
  exists session1 w1 session2 w2,
    updateSession (S fuel) sessionId first w = Ret session1 w1
    /\ updateSession (S fuel) sessionId second w1 = Ret session2 w2
    /\ (forall k,
           cookies session2 !! k
           = match cookies2 !! k with
             | Some v => Some v
             | None =>
                 match cookies1 !! k with
                 | Some v => Some v
                 | None => cookies session !! k
                 end
             end)
    /\ status session2
       = default (default (status session) (u_status first)) (u_status second)
    /\ expiresAt session2 = expiresAt session
    /\ exists deadline2, kv w2 !! sessionId = Some (deadline2, session2).
Proof.
  intros Hsome Hlive Httl Hfirst Hsecond.
  apply Z.ltb_lt in Httl as Hpos.
  erewrite updateSession_live by done. cbv zeta. rewrite Hpos.
  set (session1 := apply_updates session first (now w)).
  set (w1 := set_kv _ w).
  assert (kv w1 !! sessionId
          = Some (now w + remaining_ttl session (now w) * 1000, session1)) as Hsome1
    by (unfold w1; cbn; by rewrite lookup_insert_eq).
  exists session1, w1.
  erewrite (updateSession_live fuel sessionId second w1) by done. cbv zeta.
  change (remaining_ttl session1 (now w1)) with (remaining_ttl session (now w)).
  rewrite Hpos.
  eexists _, _. split; [done|]. split; [done|]. split.
  { intros k. cbn. rewrite Hfirst, Hsecond. cbn. unfold spread.
    rewrite !lookup_union.
    by destruct (cookies2 !! k), (cookies1 !! k), (cookies session !! k). }
  split; [done|]. split; [done|].
  eexists. cbn. by rewrite lookup_insert_eq.
Qed.

Lemma updateSession_twice_witness :
  exists session1 w1 session2 w2,
    updateSession 1 "s1" cookie_update (alice_world 0 1000) = Ret session1 w1
    /\ updateSession 1 "s1" cookie_update_again w1 = Ret session2 w2
    /\ cookies session2 !! "a" = Some "9"
    /\ cookies session2 !! "b" = Some "2".
Proof.
  destruct (updateSession_twice 0 "s1" cookie_update cookie_update_again
              {[ "a" := "1" ]} {[ "a" := "9" ]} (alice_world 0 1000)
              3600000 alice_session)
    as (session1 & w1 & session2 & w2 & Hfirst & Hsecond & Hcookies & _);
    [vm_compute; reflexivity | vm_compute; discriminate | vm_compute; reflexivity
    | reflexivity | reflexivity |].
  exists session1, w1, session2, w2.
  split; [exact Hfirst|]. split; [exact Hsecond|].
  split; [exact (Hcookies "a") | exact (Hcookies "b")].
Defined.

Lemma count_deleted sessionId w owner deadline session :
  kv w !! sessionId = Some (deadline, session) ->
  count (deleted sessionId w owner) = count w - 1.
Proof.
  intros Hsome. unfold count, deleted. cbn [kv set_sets set_kv].
  rewrite map_size_delete, Hsome.
  assert (size (kv w) <> 0%nat) as Hpos.
  { intros Hzero. apply map_size_empty_inv in Hzero.
    rewrite Hzero in Hsome. by rewrite lookup_empty in Hsome. }
  lia.
Qed.

(** X21.  Logging out frees a slot.  With the store at the session ceiling
    [createSession] is refused; once a live session has been logged out,
    the same [createSession] succeeds, and the store is at the ceiling
    again, not above it. *)
Theorem logout_frees_a_slot cfg fuel options uuid sessionId w deadline session :
  count w = maxSessions cfg ->
  kv w !! sessionId = Some (deadline, session) ->
  now w <= expiresAt session ->
  0 < lifetime_of cfg options ->
  createSession cfg options uuid w = Throw capacity_exceeded w
  /\ exists w1 created_session w2,
       logoutHandler (S fuel) sessionId w
       = Ret (success_result "Successfully logged out") w1
       /\ createSession cfg options uuid w1 = Ret created_session w2
       /\ sid created_session = uuid
       /\ count w2 <= maxSessions cfg.
Proof.
  intros Hfull Hsome Hlive Hlife.
  split; [apply createSession_full; lia|].
  exists (deleted sessionId w (username session)).
  assert (count (deleted sessionId w (username session)) < maxSessions cfg) as Hroom.
  { erewrite count_deleted by done. lia. }
  eexists _, _. split; [|split; [by apply createSession_ok|]].
  - unfold logoutHandler, try_catch, bind.
    by erewrite deleteSession_live by done.
  - cbv zeta. split; [done|].
    pose proof (count_created cfg options uuid
                  (new_session cfg options uuid
                     (now (deleted sessionId w (username session))))
                  (deleted sessionId w (username session))).
    lia.
Qed.

Lemma logout_frees_a_slot_witness :
  createSession cfg1 alice_options "s9" (alice_world 0 1000)
  = Throw capacity_exceeded (alice_world 0 1000)
  /\ exists w1 created_session w2,
       logoutHandler 1 "s1" (alice_world 0 1000)
       = Ret (success_result "Successfully logged out") w1
       /\ createSession cfg1 alice_options "s9" w1 = Ret created_session w2
       /\ sid created_session = "s9".
Proof.
  destruct (logout_frees_a_slot cfg1 0 alice_options "s9" "s1" (alice_world 0 1000)
              3600000 alice_session)
    as (Hrefused & w1 & created_session & w2 & Hlogout & Hcreate & Hsid & _);
    [vm_compute; reflexivity | vm_compute; reflexivity | vm_compute; discriminate
    | vm_compute; reflexivity |].
  split; [exact Hrefused|].
  exists w1, created_session, w2.
  split; [exact Hlogout|]. split; [exact Hcreate | exact Hsid].
Defined.

(** * How the cart tools report failures *)

Lemma cart_handler_run tool cfg fuel sessionId net w deadline session :
  kv w !! sessionId = Some (deadline, session) ->
  now w <= expiresAt session ->
  status session = ACTIVE ->
  cart_handler tool cfg (S fuel) sessionId net w
  = match callWebhook cfg (cart_endpoint tool) None net w with
    | Ret data w' =>
        Ret (match r_status data with
             | success => success_result (cart_success_message tool)
             | _ =>
                 error_result
                   (default (cart_failure_message tool) (r_message data))
                   (cart_failure_code tool)
             end) w'
    | Throw e w' => Ret (handleError e) w'
    | OutOfFuel => OutOfFuel
    end.
Proof.
  intros Hsome Hlive Hactive.
  destruct tool; cbn [cart_handler cart_endpoint cart_failure_code];
    unfold addItemsHandler, setAddressHandler, checkoutHandler, try_catch;
    erewrite !getSession_active_then by done;
    rewrite Hactive; cbn [bool_decide decide_rel];
    rewrite !bool_decide_eq_false_2 by (by intros ?);
    unfold bind, addItems, setDeliveryAddress, checkout;
    destruct (callWebhook _ _ _ _ w) as [data w'|e w'|]; try done;
    by destruct (r_status data).
Qed.

(** X22.  How the cart, address and checkout tools report a failure, on a
    live active session.  While the breaker of the tool's endpoint is open
    and cooling down, the tool answers [CIRCUIT_BREAKER_OPEN] and leaves
    the world as it is.  With the breaker closed, a failure answer of the
    engine is reported under the tool's own failure code and does not
    count against the breaker, whereas a request the network rejects with
    an [AxiosError] is reported as [EXTERNAL_SERVICE_ERROR] and counts as
    one more failure. *)
Theorem cart_tools_report_failures tool cfg fuel sessionId net w deadline session state :
  kv w !! sessionId = Some (deadline, session) ->
  now w <= expiresAt session ->
  status session = ACTIVE ->
  breaker_of w (cart_endpoint tool) = Some state ->
  (forall retry,
      isOpen state = true ->
      nextRetryTime state = Some retry ->
      now w < retry ->
      cart_handler tool cfg (S fuel) sessionId net w
      = Ret (error_result
               ("Service temporarily unavailable: n8n "
                +:+ endpoint_value (cart_endpoint tool))
               "CIRCUIT_BREAKER_OPEN") w)
  /\ (forall data,
         isOpen state = false ->
         outcome net = Resolved data ->
         r_status data <> success ->
         exists result w' state',
           cart_handler tool cfg (S fuel) sessionId net w = Ret result w'
           /\ t_status result = error
           /\ t_code result = Some (cart_failure_code tool)
           /\ breaker_of w' (cart_endpoint tool) = Some state'
           /\ isOpen state' = false
           /\ failures state' = Z.min 0 (failures state))
  /\ (forall a,
         isOpen state = false ->
         outcome net = Rejected (AxiosErr a) ->
         exists result w',
           cart_handler tool cfg (S fuel) sessionId net w = Ret result w'
           /\ t_status result = error
           /\ t_code result = Some "EXTERNAL_SERVICE_ERROR"
           /\ breaker_of w' (cart_endpoint tool)
              = Some (failed_once state (now w'))).
Proof.
  intros Hsome Hlive Hactive Hstate. split; [|split].
  - intros retry Hopen Hretry Hcooling.
    erewrite cart_handler_run by done.
    by erewrite callWebhook_open_cooling by done.
  - intros data Hclosed Hout Hfailed.
    destruct (callWebhook_closed_resolved cfg (cart_endpoint tool) None net w
                state data)
      as (w' & Hcall & _ & _ & _ & state' & Hstate' & Hclosed' & Hfailures);
      [done..|].
    erewrite cart_handler_run by done. rewrite Hcall.
    eexists _, w', state'. split; [done|].
    by destruct (r_status data).
  - intros a Hclosed Hout.
    erewrite cart_handler_run by done.
    erewrite callWebhook_closed_rejected by done. cbv zeta.
    eexists _, _. split; [done|].
    split; [apply handleError_status|]. split.
    + cbn [translate_error].
      by destruct (is_timeout_code (ax_code a)), (ax_response a) as [[? ?]|].
    + unfold breaker_of. cbn. by rewrite lookup_insert_eq.
Qed.

Lemma cart_tools_report_failures_witness :
  (exists result w',
      addItemsHandler cfg1 1 "s1" login_rejected (alice_world 0 1000) = Ret result w'
      /\ t_code result = Some "ADD_ITEMS_FAILED")
  /\ (exists result w',
         addItemsHandler cfg1 1 "s1" connection_refused (alice_world 0 1000)
         = Ret result w'
         /\ t_code result = Some "EXTERNAL_SERVICE_ERROR"
         /\ (failures <$> breaker_of w' ADD_ITEMS) = Some 1).
Proof.
  assert (kv (alice_world 0 1000) !! "s1" = Some (3600000, alice_session)) as Hsome
    by (vm_compute; reflexivity).
  assert (now (alice_world 0 1000) <= expiresAt alice_session) as Hlive
    by (vm_compute; discriminate).
  assert (breaker_of (alice_world 0 1000) ADD_ITEMS = Some closed_breaker) as Hstate
    by (vm_compute; reflexivity).
  split.
  - destruct (cart_tools_report_failures AddItemsTool cfg1 0 "s1" login_rejected
                (alice_world 0 1000) 3600000 alice_session closed_breaker
                Hsome Hlive eq_refl Hstate) as (_ & Hanswer & _).
    destruct (Hanswer _ eq_refl eq_refl ltac:(discriminate))
      as (result & w' & _ & Hrun & _ & Hcode & _).
    exists result, w'. split; [exact Hrun | exact Hcode].
  - destruct (cart_tools_report_failures AddItemsTool cfg1 0 "s1" connection_refused
                (alice_world 0 1000) 3600000 alice_session closed_breaker
                Hsome Hlive eq_refl Hstate) as (_ & _ & Hrejected).
    destruct (Hrejected _ eq_refl eq_refl) as (result & w' & Hrun & _ & Hcode & Hbreaker).
    exists result, w'. split; [exact Hrun|]. split; [exact Hcode|].
    change (breaker_of w' ADD_ITEMS) with (breaker_of w' (cart_endpoint AddItemsTool)).
    rewrite Hbreaker. reflexivity.
Defined.

(** X23.  A login at the session ceiling is refused before anything
    happens: the handler answers [MAX_SESSIONS_EXCEEDED], no session is
    stored or indexed, no request is posted to the engine and no breaker
    is touched. *)
Theorem loginHandler_at_ceiling cfg fuel input uuid net w :
  maxSessions cfg <= count w ->
  loginHandler cfg fuel input uuid net w
  = Ret (error_result "Maximum session limit reached" "MAX_SESSIONS_EXCEEDED") w.
Proof.
  intros Hfull. unfold loginHandler, try_catch, bind.
  by rewrite createSession_full.
Qed.

Lemma loginHandler_at_ceiling_witness :
  loginHandler cfg1 1 alice_login "s9" cart_success (alice_world 0 1000)
  = Ret (error_result "Maximum session limit reached" "MAX_SESSIONS_EXCEEDED")
      (alice_world 0 1000).
Proof.
  apply (loginHandler_at_ceiling cfg1 1 alice_login "s9" cart_success
           (alice_world 0 1000)).
  vm_compute. discriminate.
Defined.
